(** * TraceData: the Azure 2019 trace ingestion pipeline (Azure2019.py)

    A shallow embedding of [create_hash_id], [normalize_time_list],
    [process_file] and [process_invocation_data], and the properties of
    the pipeline: identity assignment, sparse expansion of minute counts,
    cross-shard merge, zero-anchoring and the assembly of the two tables.

    Conventions of the embedding.
    - A Python [str] is a [string]: the sequence of bytes of its UTF-8
      encoding, so that [combined.encode()] is the identity on the
      representation.
    - A Python [int] is a [Z].
    - [dict]s built by the pipeline keep their insertion order, as Python's
      do: they are association lists with at most one binding per key.
    - A row of a shard ([df.to_dicts()]) is only ever read by key: it is a
      [gmap string value].
    - Exceptions are the left summand of [result]. *)

From Stdlib Require Import ZArith List String Ascii Lia Permutation Sorted.
From stdpp Require Import base option list gmap strings pretty sorting.
Import ListNotations.

Local Open Scope string_scope.
Local Open Scope list_scope.
Local Open Scope Z_scope.

(** ** hashlib.md5 (RFC 1321), on 32-bit words held in [Z] *)

Module MD5.

Definition mask32 : Z := 0xFFFFFFFF.

Definition add32 (x y : Z) : Z := Z.land (x + y) mask32.

Definition not32 (x : Z) : Z := Z.lxor (Z.land x mask32) mask32.

Definition leftrotate (x c : Z) : Z :=
  Z.land (Z.lor (Z.shiftl x c) (Z.shiftr (Z.land x mask32) (32 - c))) mask32.

Definition shifts : list Z :=
  [ 7; 12; 17; 22; 7; 12; 17; 22; 7; 12; 17; 22; 7; 12; 17; 22;
    5; 9; 14; 20; 5; 9; 14; 20; 5; 9; 14; 20; 5; 9; 14; 20;
    4; 11; 16; 23; 4; 11; 16; 23; 4; 11; 16; 23; 4; 11; 16; 23;
    6; 10; 15; 21; 6; 10; 15; 21; 6; 10; 15; 21; 6; 10; 15; 21 ]%Z.

Definition sines : list Z :=
  [ 0xd76aa478; 0xe8c7b756; 0x242070db; 0xc1bdceee;
    0xf57c0faf; 0x4787c62a; 0xa8304613; 0xfd469501;
    0x698098d8; 0x8b44f7af; 0xffff5bb1; 0x895cd7be;
    0x6b901122; 0xfd987193; 0xa679438e; 0x49b40821;
    0xf61e2562; 0xc040b340; 0x265e5a51; 0xe9b6c7aa;
    0xd62f105d; 0x02441453; 0xd8a1e681; 0xe7d3fbc8;
    0x21e1cde6; 0xc33707d6; 0xf4d50d87; 0x455a14ed;
    0xa9e3e905; 0xfcefa3f8; 0x676f02d9; 0x8d2a4c8a;
    0xfffa3942; 0x8771f681; 0x6d9d6122; 0xfde5380c;
    0xa4beea44; 0x4bdecfa9; 0xf6bb4b60; 0xbebfbc70;
    0x289b7ec6; 0xeaa127fa; 0xd4ef3085; 0x04881d05;
    0xd9d4d039; 0xe6db99e5; 0x1fa27cf8; 0xc4ac5665;
    0xf4292244; 0x432aff97; 0xab9423a7; 0xfc93a039;
    0x655b59c3; 0x8f0ccc92; 0xffeff47d; 0x85845dd1;
    0x6fa87e4f; 0xfe2ce6e0; 0xa3014314; 0x4e0811a1;
    0xf7537e82; 0xbd3af235; 0x2ad7d2bb; 0xeb86d391 ]%Z.

(** The four chaining words A, B, C, D. *)
Record state := State { wa : Z; wb : Z; wc : Z; wd : Z }.

Definition init : state :=
  State 0x67452301 0xefcdab89 0x98badcfe 0x10325476.

(** Message padding: a 1 bit, zeros up to 56 mod 64, then the bit length
    as a 64-bit little-endian integer. *)
Definition le_bytes (n : nat) (x : Z) : list Z :=
  map (fun k => Z.land (Z.shiftr x (8 * Z.of_nat k)) 0xFF) (seq 0 n).

Definition pad (msg : list Z) : list Z :=
  let len := Z.of_nat (length msg) in
  let zeros := Z.to_nat ((55 - len) mod 64) in
  msg ++ [0x80] ++ repeat 0 zeros ++ le_bytes 8 (Z.land (8 * len) 0xFFFFFFFFFFFFFFFF).

Definition word_of_bytes (bs : list Z) : Z :=
  fold_right (fun b acc => b + 256 * acc) 0 bs.

Fixpoint words (n : nat) (bs : list Z) : list Z :=
  match n with
  | O => []
  | S n' => word_of_bytes (firstn 4 bs) :: words n' (skipn 4 bs)
  end.

Definition round_fg (i : Z) (b c d : Z) : Z * Z :=
  if i <? 16 then (Z.lor (Z.land b c) (Z.land (not32 b) d), i)
  else if i <? 32 then (Z.lor (Z.land d b) (Z.land (not32 d) c), (5 * i + 1) mod 16)
  else if i <? 48 then (Z.lxor (Z.lxor b c) d, (3 * i + 5) mod 16)
  else (Z.lxor c (Z.lor b (not32 d)), (7 * i) mod 16).

Definition step (m : list Z) (st : state) (i : nat) : state :=
  let '(State a b c d) := st in
  let '(f, g) := round_fg (Z.of_nat i) b c d in
  let f' := add32 (add32 (add32 f a) (nth i sines 0)) (nth (Z.to_nat g) m 0) in
  State d (add32 b (leftrotate f' (nth i shifts 0))) b c.

Definition block (st : state) (chunk : list Z) : state :=
  let m := words 16 chunk in
  let '(State a b c d) := fold_left (step m) (seq 0 64) st in
  State (add32 (wa st) a) (add32 (wb st) b) (add32 (wc st) c) (add32 (wd st) d).

Fixpoint blocks (n : nat) (bs : list Z) (st : state) : state :=
  match n with
  | O => st
  | S n' => blocks n' (skipn 64 bs) (block st (firstn 64 bs))
  end.

Definition digest (msg : list Z) : list Z :=
  let p := pad msg in
  let '(State a b c d) := blocks (length p / 64) p init in
  le_bytes 4 a ++ le_bytes 4 b ++ le_bytes 4 c ++ le_bytes 4 d.

Definition hex_digit (n : Z) : ascii :=
  nth (Z.to_nat (Z.land n 0xF)) (list_ascii_of_string "0123456789abcdef") "0"%char.

Definition hex_byte (b : Z) : list ascii :=
  [hex_digit (Z.shiftr b 4); hex_digit b].

Definition bytes_of_string (s : string) : list Z :=
  map (fun c => Z.of_N (N_of_ascii c)) (list_ascii_of_string s).

(** [hashlib.md5(data).hexdigest()] *)
Definition hexdigest (data : string) : string :=
  string_of_list_ascii (concat (map hex_byte (digest (bytes_of_string data)))).

End MD5.

(** ** Python values and exceptions *)

(** A cell of a data frame row, for the columns that polars reads as
    [Int64] or [Utf8]: a null, an integer or a string. Cells of [Float64]
    and [Boolean] columns are not part of the model. *)
Inductive value :=
  | VNull
  | VInt (z : Z)
  | VStr (s : string).

#[global] Instance value_eq_dec : EqDecision value.
Proof. solve_decision. Defined.

Inductive exn :=
  | KeyError (key : string)
  | TypeError
  | ReadError
  | ComputeError.

Inductive result (A : Type) :=
  | Ok (a : A)
  | Raise (e : exn).
Arguments Ok {A} a.
Arguments Raise {A} e.

Definition bind {A B} (m : result A) (f : A -> result B) : result B :=
  match m with
  | Ok a => f a
  | Raise e => Raise e
  end.

Notation "x <- m ;; k" := (bind m (fun x => k))
  (at level 100, m at next level, right associativity).

(** [for x in xs: st = body(st, x)] where the body may raise. *)
Fixpoint for_each {S X} (body : S -> X -> result S) (st : S) (xs : list X)
  : result S :=
  match xs with
  | [] => Ok st
  | x :: xs' => st' <- body st x ;; for_each body st' xs'
  end.

(** [f"{v}"] *)
Definition format_value (v : value) : string :=
  match v with
  | VNull => "None"
  | VInt z => pretty z
  | VStr s => s
  end.

(** [d[key]] on a row. *)
Definition getitem (d : gmap string value) (key : string) : result value :=
  match d !! key with
  | Some v => Ok v
  | None => Raise (KeyError key)
  end.

(** [v > 0]: an order comparison of a null or a string with an [int]
    raises [TypeError]. *)
Definition gt_zero (v : value) : result bool :=
  match v with
  | VInt z => Ok (0 <? z)
  | VNull | VStr _ => Raise TypeError
  end.

(** [int(v)], reached only after [v > 0] has succeeded. *)
Definition py_int (v : value) : result Z :=
  match v with
  | VInt z => Ok z
  | VNull | VStr _ => Raise TypeError
  end.

(** [round(x, ndigits)] on an [int]: the identity for [ndigits >= 0],
    otherwise the nearest multiple of [10 ** -ndigits], ties to even. *)
Definition py_round (x ndigits : Z) : Z :=
  if 0 <=? ndigits then x
  else
    let p := 10 ^ (- ndigits) in
    let r := x mod p in
    if 2 * r <? p then x - r
    else if p <? 2 * r then x - r + p
    else if Z.even (x / p) then x - r else x - r + p.

(** ** Insertion-ordered dictionaries *)

Definition pydict (V : Type) := list (string * V).

Fixpoint dict_get {V} (k : string) (d : pydict V) : option V :=
  match d with
  | [] => None
  | (k', v) :: d' => if decide (k = k') then Some v else dict_get k d'
  end.

(** [d[k] = v]: an existing key keeps its position. *)
Fixpoint dict_set {V} (k : string) (v : V) (d : pydict V) : pydict V :=
  match d with
  | [] => [(k, v)]
  | (k', v') :: d' =>
      if decide (k = k') then (k, v) :: d' else (k', v') :: dict_set k v d'
  end.

Definition keys {V} (d : pydict V) : list string := map fst d.

(** ** Azure2019.py *)

(** [s[:n]] *)
Definition str_prefix (n : nat) (s : string) : string :=
  string_of_list_ascii (firstn n (list_ascii_of_string s)).

Definition combined_key (owner app func : value) : string :=
  format_value owner +:+ "_" +:+ format_value app +:+ "_" +:+ format_value func.

Definition create_hash_id (owner app func : value) : string :=
  let combined := combined_key owner app func in
  str_prefix 10 (MD5.hexdigest combined).

Definition normalize_time_list (time_list : list Z) : list Z :=
  match time_list with
  | [] => []
  | t0 :: rest =>
      let min_val := fold_left Z.min rest t0 in
      map (fun t => py_round (t - min_val) 3) time_list
  end.

(** What [normalize_time_list] is handed for a series of timestamps: a
    Python [list], or the polars [Series] that [map_elements] passes for a
    cell of a list column. *)
Inductive time_arg :=
  | PyList (l : list Z)
  | PlSeries (l : list Z).

(** [not time_list]: an empty list is false; a [Series] refuses to give a
    truth value and raises [TypeError]. *)
Definition py_not (time_list : time_arg) : result bool :=
  match time_list with
  | PyList [] => Ok true
  | PyList (_ :: _) => Ok false
  | PlSeries _ => Raise TypeError
  end.

(** A call of [normalize_time_list]: the function above when the argument
    is a list; the test of its first line raises when it is a [Series]. *)
Definition call_normalize_time_list (time_list : time_arg) : result (list Z) :=
  empty <- py_not time_list ;;
  if (empty : bool) then Ok []
  else
    match time_list with
    | PyList l | PlSeries l => Ok (normalize_time_list l)
    end.

Record translation := Translation {
  HashOwner : value;
  HashApp : value;
  HashFunction : value;
  Trigger : value;
  original_uuid : string;
  new_hash_uuid : string
}.

#[global] Instance translation_eq_dec : EqDecision translation.
Proof. solve_decision. Defined.

(** The inner loop of [process_file]: [minutes] is what is left of
    [range(1, 1441)]. *)
Fixpoint expand_minutes (base_timestamp : Z) (row_dict : gmap string value)
    (minutes : list Z) (timestamps : list Z) : result (list Z) :=
  match minutes with
  | [] => Ok timestamps
  | minute :: rest =>
      let minute_str := pretty minute in
      match row_dict !! minute_str with
      | None => expand_minutes base_timestamp row_dict rest timestamps
      | Some v =>
          positive <- gt_zero v ;;
          if (positive : bool) then
            n <- py_int v ;;
            let timestamp := base_timestamp + minute in
            expand_minutes base_timestamp row_dict rest
              (timestamps ++ repeat timestamp (Z.to_nat n))
          else expand_minutes base_timestamp row_dict rest timestamps
      end
  end.

Definition collectors : Type := pydict (list Z) * list translation.

(** One iteration of [for row_dict in row_iterator]. *)
Definition process_row (base_timestamp : Z) (st : collectors)
    (row_dict : gmap string value) : result collectors :=
  let '(file_invocations, file_translations) := st in
  owner <- getitem row_dict "HashOwner" ;;
  app <- getitem row_dict "HashApp" ;;
  func <- getitem row_dict "HashFunction" ;;
  trigger <- getitem row_dict "Trigger" ;;
  let func_id := create_hash_id owner app func in
  let file_translations :=
    file_translations ++
      [ {| HashOwner := owner; HashApp := app; HashFunction := func;
           Trigger := trigger;
           original_uuid := combined_key owner app func;
           new_hash_uuid := func_id |} ] in
  timestamps <- expand_minutes base_timestamp row_dict (seqZ 1 1440) [] ;;
  match timestamps with
  | [] => Ok (file_invocations, file_translations)
  | _ :: _ => Ok (dict_set func_id timestamps file_invocations, file_translations)
  end.

(** What [pl.read_csv(file_path)] finds: no readable table, or the rows of
    the table. *)
Inductive shard :=
  | Unreadable
  | Frame (row_dicts : list (gmap string value)).

(** The body of the [try] of [process_file]. *)
Definition process_file_body (file : shard) (file_idx : Z) : result collectors :=
  match file with
  | Unreadable => Raise ReadError
  | Frame row_dicts =>
      let base_timestamp := file_idx * 24 * 60 in
      for_each (process_row base_timestamp) ([], []) row_dicts
  end.

Definition process_file (file : shard) (file_idx : Z) : collectors :=
  match process_file_body file file_idx with
  | Ok r => r
  | Raise _ => ([], [])
  end.

(** The merge of one completed file into the main collectors. *)
Definition merge_invocations (function_invocations file_invocations : pydict (list Z))
  : pydict (list Z) :=
  fold_left
    (fun acc '(func_id, timestamps) =>
       match dict_get func_id acc with
       | Some old => dict_set func_id (old ++ timestamps) acc
       | None => dict_set func_id timestamps acc
       end)
    file_invocations function_invocations.

Definition merge_file (main file : collectors) : collectors :=
  (merge_invocations main.1 file.1, main.2 ++ file.2).

(** [executor.submit(process_file, path, idx) for idx, file in enumerate(...)] *)
Definition submit (invocation_files : list shard) : list collectors :=
  imap (fun idx file => process_file file (Z.of_nat idx)) invocation_files.

(** [as_completed]: the futures in the order in which they finish; [order]
    lists their indices in that order. *)
Definition as_completed {A} (order : list nat) (futures : list A) : list A :=
  omap (fun idx => futures !! idx) order.

Definition collect (completed : list collectors) : collectors :=
  fold_left merge_file completed ([], []).

Record invocation := Invocation {
  uuid : string;
  time : list Z;
  call_count : Z
}.

(** [pl.col(c).map_elements(f)]: [f] on every cell of the column, in
    order; polars raises an exception of [f] again as a [ComputeError]. *)
Fixpoint map_elements {A B} (f : A -> result B) (column : list A) : result (list B) :=
  match column with
  | [] => Ok []
  | cell :: column' =>
      match f cell with
      | Ok b => bs <- map_elements f column' ;; Ok (b :: bs)
      | Raise _ => Raise ComputeError
      end
  end.

(** The data frame of [uuid] and [time], with [time] mapped through
    [normalize_time_list] and [call_count] through [len], both on the
    cells of the [time] column as it was: each cell is a [Series]. *)
Definition with_columns (function_invocations : pydict (list Z))
  : result (list invocation) :=
  let uuids := keys function_invocations in
  let times := map snd function_invocations in
  normalized <-
    map_elements (fun timestamps => call_normalize_time_list (PlSeries timestamps))
                 times ;;
  counts <- map_elements (fun timestamps => Ok (Z.of_nat (length timestamps))) times ;;
  Ok (zip_with (fun '(func_id, time) count =>
                  {| uuid := func_id; time := time; call_count := count |})
               (zip uuids normalized) counts).

(** [df.sort('call_count', descending=True)]: the library leaves the order
    of ties open; this is the sort that keeps them in frame order. *)
Fixpoint insert_desc (r : invocation) (rows : list invocation) : list invocation :=
  match rows with
  | [] => [r]
  | x :: rows' =>
      if call_count x <=? call_count r then r :: x :: rows'
      else x :: insert_desc r rows'
  end.

Definition sort_desc (rows : list invocation) : list invocation :=
  fold_right insert_desc [] rows.

(** [invocation_files] is the sorted listing; [order] is the order in
    which the submitted tasks complete; [frame_unique] is
    [pl.DataFrame(translation_data).unique()], library code that the model
    takes as it is given: it coerces the cells of a column to one type and
    leaves the order of the rows open. *)
Definition process_invocation_data {frame : Type}
    (frame_unique : list translation -> result frame)
    (invocation_files : list shard) (order : list nat)
  : result (list invocation * frame) :=
  let '(function_invocations, translation_data) :=
    collect (as_completed order (submit invocation_files)) in
  df_invocations <- with_columns function_invocations ;;
  let df_invocations := sort_desc df_invocations in
  translation_df <- frame_unique translation_data ;;
  Ok (df_invocations, translation_df).

(** ** Vocabulary of the properties *)

Definition is_hex_char (c : ascii) : bool :=
  bool_decide (c ∈ list_ascii_of_string "0123456789abcdef").

(** The identity columns of a row and the record [process_file] appends
    for it, when the four columns are there. *)
Definition row_record (row_dict : gmap string value) : option translation :=
  match row_dict !! "HashOwner", row_dict !! "HashApp",
        row_dict !! "HashFunction", row_dict !! "Trigger" with
  | Some owner, Some app, Some func, Some trigger =>
      Some {| HashOwner := owner; HashApp := app; HashFunction := func;
              Trigger := trigger;
              original_uuid := combined_key owner app func;
              new_hash_uuid := create_hash_id owner app func |}
  | _, _, _, _ => None
  end.

Definition row_identity (row_dict : gmap string value) : option string :=
  new_hash_uuid <$> row_record row_dict.

(** The number of timestamps the minute field [minute] of a row stands
    for: its value when that is a positive integer. *)
Definition minute_copies (row_dict : gmap string value) (minute : Z) : nat :=
  match row_dict !! pretty minute with
  | Some (VInt c) => Z.to_nat c
  | _ => 0%nat
  end.

(** The sparse expansion of a row at a time-axis anchor. *)
Definition expansion (base_timestamp : Z) (row_dict : gmap string value)
    (minutes : list Z) : list Z :=
  flat_map (fun minute => repeat (base_timestamp + minute) (minute_copies row_dict minute))
           minutes.

(** All the minute fields of a row that are there are integers. *)
Definition well_typed_minutes (row_dict : gmap string value) (minutes : list Z) : bool :=
  forallb (fun minute =>
             match row_dict !! pretty minute with
             | None | Some (VInt _) => true
             | Some _ => false
             end) minutes.


Definition sumZ (l : list Z) : Z := foldr Z.add 0 l.

(** The value of a minute field as the data model has it: a count, 0 for a
    missing column. *)
Definition minute_count (row_dict : gmap string value) (minute : Z) : Z :=
  match row_dict !! pretty minute with
  | Some (VInt c) => c
  | _ => 0
  end.

Definition row_total (row_dict : gmap string value) : Z :=
  sumZ (map (minute_count row_dict) (seqZ 1 1440)).

(** The total of the minute fields of the rows of a shard that carry the
    identity [func_id]; a shard that fails to decode counts for nothing. *)
Definition shard_total (func_id : string) (file : shard) (file_idx : Z) : Z :=
  match file, process_file_body file file_idx with
  | Frame row_dicts, Ok _ =>
      sumZ (map row_total
              (filter (fun row_dict => row_identity row_dict = Some func_id) row_dicts))
  | _, _ => 0
  end.

Definition dataset_total (func_id : string) (invocation_files : list shard) : Z :=
  sumZ (imap (fun idx file => shard_total func_id file (Z.of_nat idx)) invocation_files).

(** Two series maps hold the same series up to the order inside each. *)
Definition same_series (d1 d2 : pydict (list Z)) : Prop :=
  forall k, option_Forall2 Permutation (dict_get k d1) (dict_get k d2).

(** What two series for one identity amount to together. *)
Definition join_series (a b : option (list Z)) : option (list Z) :=
  match a, b with
  | Some x, Some y => Some (x ++ y)
  | Some x, None => Some x
  | None, b => b
  end.

(** The timestamps of the day of the shard of index [file_idx]. *)
Definition in_day (file_idx : Z) (t : Z) : Prop :=
  file_idx * 1440 + 1 <= t <= file_idx * 1440 + 1440.

(** What holds of the series map of a shard all along the loop over its
    rows: one binding per key, every series non-empty and inside the day
    of the shard. *)
Definition shard_inv (file_idx : Z) (st : collectors) : Prop :=
  NoDup (keys st.1)
  /\ forall k ts, dict_get k st.1 = Some ts -> ts <> [] /\ Forall (in_day file_idx) ts.

(** Two pairs of collectors with the same content. *)
Definition same_collectors (a b : collectors) : Prop :=
  same_series a.1 b.1 /\ a.2 ≡ₚ b.2.

(** The number of timestamps a series map holds for an identity. *)
Definition series_len (k : string) (d : pydict (list Z)) : nat :=
  length (default [] (dict_get k d)).

(** No two rows of the shard carry the same identity. *)
Definition distinct_identities (file : shard) : Prop :=
  match file with
  | Unreadable => True
  | Frame row_dicts => NoDup (omap row_identity row_dicts)
  end.

(** The minute fields of the shard are counts: none is negative. *)
Definition counts_nonneg (file : shard) : Prop :=
  match file with
  | Unreadable => True
  | Frame row_dicts =>
      Forall (fun row_dict => forall minute, 0 <= minute_count row_dict minute) row_dicts
  end.

(** ** Sample data *)

Definition mkrow (owner app func trigger : string) (cells : list (Z * value))
  : gmap string value :=
  list_to_map
    ([("HashOwner", VStr owner); ("HashApp", VStr app);
      ("HashFunction", VStr func); ("Trigger", VStr trigger)]
     ++ map (fun '(minute, v) => (pretty minute, v)) cells).

Definition row_a : gmap string value := mkrow "o1" "a1" "f1" "http" [(1, VInt 2)].
Definition row_b : gmap string value := mkrow "o1" "a1" "f1" "http" [(1, VInt 1)].
Definition row_c : gmap string value := mkrow "o1" "a1" "f1" "timer" [(2, VInt 1)].
Definition row_idle : gmap string value := mkrow "o2" "a2" "f2" "queue" [(1, VInt 0); (7, VInt 0)].
Definition row_busy : gmap string value :=
  mkrow "o3" "a3" "f3" "http" [(5, VInt 3); (1440, VInt 2)].
Definition row_null : gmap string value := mkrow "o4" "a4" "f4" "http" [(3, VNull)].

(** ** Finding the shard files

    The first lines of [process_invocation_data]: the names of the
    directory are filtered by prefix and suffix and sorted, and the position
    of a name in the sorted list is the index of its shard. *)

(** [s.startswith(prefix)] *)
Definition startswith (s prefix : string) : bool := String.prefix prefix s.

(** [s.endswith(suffix)] *)
Definition endswith (s suffix : string) : bool :=
  let n := String.length s in
  let m := String.length suffix in
  (m <=? n)%nat && String.eqb (substring (n - m) m s) suffix.

(** [sorted(names)]: ascending in the order of [str], which on UTF-8 bytes
    is the order of code points. *)
Fixpoint insert_sorted (f : string) (names : list string) : list string :=
  match names with
  | [] => [f]
  | x :: names' =>
      if String.leb f x then f :: x :: names' else x :: insert_sorted f names'
  end.

Definition sorted (names : list string) : list string :=
  foldr insert_sorted [] names.

Definition is_invocation_file (f : string) : bool :=
  startswith f "invocations_per_function_md.anon.d" && endswith f ".csv".

(** [listing] is what [os.listdir(base_path)] returns, in its order. *)
Definition invocation_file_names (listing : list string) : list string :=
  sorted (filter (fun f => is_invocation_file f = true) listing).

(** A directory: the names [os.listdir] returns, in the order in which it
    returns them, each with what [pl.read_csv] finds under the name. *)
Definition read_csv (dir : pydict shard) (name : string) : shard :=
  default Unreadable (dict_get name dir).

(** ** Vocabulary of the further properties *)

(** The series of an identity in a series map, empty when it has none. *)
Definition series (k : string) (d : pydict (list Z)) : list Z :=
  default [] (dict_get k d).

(** A series map moved along the time axis. *)
Definition shift_series (d : Z) (inv : pydict (list Z)) : pydict (list Z) :=
  map (fun '(k, ts) => (k, map (Z.add d) ts)) inv.

(** No identity of a series map has an empty series. *)
Definition series_nonempty (d : pydict (list Z)) : Prop :=
  forall k ts, dict_get k d = Some ts -> ts <> [].

(** The order of file names. *)
Definition str_le (a b : string) : Prop := String.leb a b = true.

(** The number of timestamps of a series map. *)
Definition mass (d : pydict (list Z)) : nat :=
  sum_list_with (fun kv : string * list Z => length kv.2) d.



(** The columns [process_file] reads. *)
Definition columns_read : list string :=
  ["HashOwner"; "HashApp"; "HashFunction"; "Trigger"] ++ map pretty (seqZ 1 1440).

#[global] Instance in_day_dec file_idx t : Decision (in_day file_idx t).
Proof. unfold in_day. apply _. Defined.

Definition row_extra : gmap string value :=
  <["1441" := VNull]> (<["Region" := VStr "eu"]> row_busy).

Definition sample_listing : list string :=
  [ "invocations_per_function_md.anon.d02.csv";
    "app_memory_percentiles.anon.d01.csv";
    "invocations_per_function_md.anon.d01.csv";
    "invocations_per_function_md.anon.d01.csv.bak" ].

Definition sample_dir : pydict shard :=
  [ ("invocations_per_function_md.anon.d02.csv", Frame [row_b]);
    ("notes.txt", Unreadable);
    ("invocations_per_function_md.anon.d01.csv", Frame [row_a; row_busy]) ].

(** * Properties *)

(** The 1440 minutes of a day stay folded in the proofs. *)
#[local] Arguments seqZ : simpl never.
#[local] Opaque seqZ.

Example md5_empty : MD5.hexdigest "" = "d41d8cd98f00b204e9800998ecf8427e".
Proof. vm_compute. reflexivity. Qed.

Example md5_abc : MD5.hexdigest "abc" = "900150983cd24fb0d6963f7d28e17f72".
Proof. vm_compute. reflexivity. Qed.

Example md5_alphabet :
  MD5.hexdigest "abcdefghijklmnopqrstuvwxyz" = "c3fcd3d76192e4007dfb496cca67e13b".
Proof. vm_compute. reflexivity. Qed.

Example md5_two_blocks :
  MD5.hexdigest
    "12345678901234567890123456789012345678901234567890123456789012345678901234567890"
  = "57edf4a22be3c955ac49da2e2107b67a".
Proof. vm_compute. reflexivity. Qed.

(** ** Identity assignment *)

Lemma length_string_of_chars (l : list ascii) :
  String.length (string_of_list_ascii l) = length l.
Proof. induction l as [|c l IH]; simpl; congruence. Qed.

Lemma hex_digit_is_hex (n : Z) : is_hex_char (MD5.hex_digit n) = true.
Proof.
  unfold MD5.hex_digit.
  assert (H : (Z.to_nat (Z.land n 0xF) < 16)%nat).
  { assert (0 <= Z.land n 0xF < 16).
    { change 0xF with (Z.ones 4). rewrite Z.land_ones by lia.
      apply Z.mod_pos_bound. lia. }
    lia. }
  revert H. generalize (Z.to_nat (Z.land n 0xF)). intros k Hk.
  do 16 (destruct k as [|k]; [reflexivity|]). lia.
Qed.

Lemma digest_length (msg : list Z) : length (MD5.digest msg) = 16%nat.
Proof.
  unfold MD5.digest.
  destruct (MD5.blocks _ _ _) as [a b c d]. reflexivity.
Qed.

Lemma hex_bytes_length (bs : list Z) :
  length (concat (map MD5.hex_byte bs)) = (2 * length bs)%nat.
Proof. induction bs as [|b bs IH]; simpl in *; lia. Qed.

Lemma hex_bytes_hex (bs : list Z) :
  Forall (fun c => is_hex_char c = true) (concat (map MD5.hex_byte bs)).
Proof.
  induction bs as [|b bs IH]; simpl; [constructor|].
  repeat constructor; auto using hex_digit_is_hex.
Qed.

Lemma hexdigest_length (data : string) :
  String.length (MD5.hexdigest data) = 32%nat.
Proof.
  unfold MD5.hexdigest.
  rewrite length_string_of_chars, hex_bytes_length, digest_length. reflexivity.
Qed.

Lemma hexdigest_hex (data : string) :
  Forall (fun c => is_hex_char c = true) (list_ascii_of_string (MD5.hexdigest data)).
Proof.
  unfold MD5.hexdigest. rewrite list_ascii_of_string_of_list_ascii.
  apply hex_bytes_hex.
Qed.

(** C3: [create_hash_id] is a function of its three arguments alone (equal
    triples give equal identifiers, whatever was computed before), it
    returns a value for every triple, the empty strings included, and that
    value is exactly 10 hexadecimal characters. *)
Theorem create_hash_id_deterministic_10_hex (owner app func : value) :
  String.length (create_hash_id owner app func) = 10%nat
  /\ Forall (fun c => is_hex_char c = true)
            (list_ascii_of_string (create_hash_id owner app func))
  /\ (forall owner' app' func',
        (owner', app', func') = (owner, app, func) ->
        create_hash_id owner' app' func' = create_hash_id owner app func)
  /\ create_hash_id (VStr "") (VStr "") (VStr "") = "18f05aeddc".
Proof.
  unfold create_hash_id, str_prefix. split; [|split; [|split]].
  - rewrite length_string_of_chars, length_firstn.
    rewrite <- (length_string_of_chars (list_ascii_of_string _)).
    rewrite string_of_list_ascii_of_string, hexdigest_length. reflexivity.
  - rewrite list_ascii_of_string_of_list_ascii.
    apply Forall_take, hexdigest_hex.
  - intros o' a' f' [= -> -> ->]. reflexivity.
  - vm_compute. reflexivity.
Qed.

Lemma create_hash_id_deterministic_10_hex_witness :
  (VStr "o1", VStr "a1", VStr "f1") = (VStr "o1", VStr "a1", VStr "f1")
  /\ String.length (create_hash_id (VStr "o1") (VStr "a1") (VStr "f1")) = 10%nat
  /\ create_hash_id (VStr "o1") (VStr "a1") (VStr "f1") = "5dac6055c9"
  /\ create_hash_id (VStr "o1") (VStr "a1") (VStr "f1")
     = create_hash_id (VStr "o1") (VStr "a1") (VStr "f1").
Proof.
  split; [reflexivity|].
  split; [exact (proj1 (create_hash_id_deterministic_10_hex
                          (VStr "o1") (VStr "a1") (VStr "f1")))|].
  split; [vm_compute; reflexivity|].
  exact (proj1 (proj2 (proj2 (create_hash_id_deterministic_10_hex
                                (VStr "o1") (VStr "a1") (VStr "f1"))))
           (VStr "o1") (VStr "a1") (VStr "f1") eq_refl).
Defined.

Lemma process_row_Ok base inv tr row st' :
  process_row base (inv, tr) row = Ok st' ->
  exists rec ts,
    row_record row = Some rec
    /\ expand_minutes base row (seqZ 1 1440) [] = Ok ts
    /\ st' = (match ts with
              | [] => inv
              | _ :: _ => dict_set (new_hash_uuid rec) ts inv
              end, tr ++ [rec]).
Proof.
  unfold process_row, row_record, getitem, bind.
  destruct (row !! "HashOwner") as [owner|]; [|discriminate].
  destruct (row !! "HashApp") as [app|]; [|discriminate].
  destruct (row !! "HashFunction") as [func|]; [|discriminate].
  destruct (row !! "Trigger") as [trigger|]; [|discriminate].
  destruct (expand_minutes base row (seqZ 1 1440) []) as [ts|e]; [|discriminate].
  intros H. eexists _, ts. split; [reflexivity|]. split; [reflexivity|].
  destruct ts; injection H as <-; reflexivity.
Qed.

(** C10: the identifier and the original key of a row depend on the triple
    only through the underscore-joined string: two triples with the same
    joined string get the same identifier, and the records of two rows
    carrying them have the same original key and the same identifier. *)
Theorem identity_depends_on_joined_key (owner app func owner' app' func' : value) :
  combined_key owner app func = combined_key owner' app' func' ->
  create_hash_id owner app func = create_hash_id owner' app' func'
  /\ forall row row' rec rec',
       row_record row = Some rec -> row_record row' = Some rec' ->
       (HashOwner rec, HashApp rec, HashFunction rec) = (owner, app, func) ->
       (HashOwner rec', HashApp rec', HashFunction rec') = (owner', app', func') ->
       original_uuid rec = original_uuid rec'
       /\ new_hash_uuid rec = new_hash_uuid rec'.
Proof.
  intros Hkey. split.
  - unfold create_hash_id. rewrite Hkey. reflexivity.
  - intros row row' rec rec' Hrec Hrec' Htriple Htriple'.
    unfold row_record in Hrec, Hrec'.
    repeat match type of Hrec with
           | context [?m !! ?k] => destruct (m !! k); [|discriminate]
           end.
    repeat match type of Hrec' with
           | context [?m !! ?k] => destruct (m !! k); [|discriminate]
           end.
    injection Hrec as <-. injection Hrec' as <-. simpl in *.
    injection Htriple as -> -> ->. injection Htriple' as -> -> ->.
    unfold create_hash_id. rewrite Hkey. split; reflexivity.
Qed.

Lemma identity_depends_on_joined_key_witness :
  combined_key (VStr "a") (VStr "b_c") (VStr "d")
    = combined_key (VStr "a_b") (VStr "c") (VStr "d")
  /\ (VStr "a", VStr "b_c", VStr "d") <> (VStr "a_b", VStr "c", VStr "d")
  /\ create_hash_id (VStr "a") (VStr "b_c") (VStr "d")
       = create_hash_id (VStr "a_b") (VStr "c") (VStr "d").
Proof.
  split; [reflexivity|]. split; [discriminate|].
  exact (proj1 (identity_depends_on_joined_key
                  (VStr "a") (VStr "b_c") (VStr "d")
                  (VStr "a_b") (VStr "c") (VStr "d") eq_refl)).
Defined.

(** ** Normalization *)

Lemma fold_min_spec (rest : list Z) (t0 : Z) :
  fold_left Z.min rest t0 ∈ t0 :: rest
  /\ Forall (fun t => fold_left Z.min rest t0 <= t) (t0 :: rest).
Proof.
  revert t0. induction rest as [|t rest IH]; intros t0; simpl.
  - split; [left|]. repeat constructor. lia.
  - destruct (IH (Z.min t0 t)) as [Hin Hle].
    apply Forall_cons in Hle as [Hle0 Hle]. split.
    + apply elem_of_cons in Hin as [Hin|Hin].
      * rewrite Hin. destruct (Z.min_spec t0 t) as [[_ ->]|[_ ->]].
        -- left.
        -- right; left.
      * right; right; exact Hin.
    + constructor; [lia|]. constructor; [lia|exact Hle].
Qed.

Lemma py_round_3 (x : Z) : py_round x 3 = x.
Proof. reflexivity. Qed.

(** C4: normalization subtracts the minimum of the series from every
    timestamp and rounds to 3 digits; the result is as long as the input,
    the empty series gives the empty series, and the minimum of a
    normalized non-empty series is exactly 0. *)
Theorem normalize_time_list_anchored (time_list : list Z) :
  length (normalize_time_list time_list) = length time_list
  /\ (time_list = [] -> normalize_time_list time_list = [])
  /\ (time_list <> [] ->
      exists min_t,
        min_t ∈ time_list
        /\ Forall (fun t => min_t <= t) time_list
        /\ normalize_time_list time_list
             = map (fun t => py_round (t - min_t) 3) time_list
        /\ 0 ∈ normalize_time_list time_list
        /\ Forall (fun t => 0 <= t) (normalize_time_list time_list)).
Proof.
  destruct time_list as [|t0 rest].
  - split; [reflexivity|]. split; [reflexivity|]. intros H. destruct H. reflexivity.
  - unfold normalize_time_list.
    destruct (fold_min_spec rest t0) as [Hin Hle].
    set (min_val := fold_left Z.min rest t0) in *.
    split; [apply length_map|]. split; [discriminate|].
    intros _. exists min_val. split; [exact Hin|]. split; [exact Hle|].
    split; [reflexivity|]. split.
    + apply list_elem_of_fmap. exists min_val. split; [|exact Hin].
      rewrite py_round_3. symmetry. apply Z.sub_diag.
    + apply Forall_fmap. eapply Forall_impl; [exact Hle|].
      clearbody min_val. intros t Ht. simpl in *. rewrite py_round_3. lia.
Qed.

Lemma normalize_time_list_anchored_witness :
  [1; 1; 1441] <> []
  /\ normalize_time_list [1; 1; 1441] = [0; 0; 1440]
  /\ exists min_t,
       min_t ∈ [1; 1; 1441]
       /\ Forall (fun t => min_t <= t) [1; 1; 1441]
       /\ normalize_time_list [1; 1; 1441]
            = map (fun t => py_round (t - min_t) 3) [1; 1; 1441]
       /\ 0 ∈ normalize_time_list [1; 1; 1441]
       /\ Forall (fun t => 0 <= t) (normalize_time_list [1; 1; 1441]).
Proof.
  split; [discriminate|]. split; [reflexivity|].
  apply (normalize_time_list_anchored [1; 1; 1441]). discriminate.
Defined.

(** ** Dictionaries *)

Section Dict.
Context {V : Type}.
Implicit Types (d : pydict V) (k : string) (v : V).

Lemma dict_get_set_eq k v d : dict_get k (dict_set k v d) = Some v.
Proof.
  induction d as [|[k' v'] d IH]; simpl.
  - rewrite decide_True; reflexivity.
  - destruct (decide (k = k')) as [->|Hne]; simpl.
    + rewrite decide_True; reflexivity.
    + rewrite decide_False by exact Hne. exact IH.
Qed.

Lemma dict_get_set_ne k k' v d : k <> k' -> dict_get k' (dict_set k v d) = dict_get k' d.
Proof.
  intros Hne. induction d as [|[k0 v0] d IH]; simpl.
  - rewrite decide_False by congruence. reflexivity.
  - destruct (decide (k = k0)) as [->|Hne0]; simpl.
    + rewrite !decide_False by congruence. reflexivity.
    + destruct (decide (k' = k0)); [reflexivity|exact IH].
Qed.

Lemma dict_get_None k d : dict_get k d = None <-> k ∉ keys d.
Proof.
  induction d as [|[k' v'] d IH]; simpl.
  - split; [intros _; apply not_elem_of_nil|reflexivity].
  - rewrite not_elem_of_cons. destruct (decide (k = k')) as [->|Hne].
    + split; [discriminate|intros [[] _]; reflexivity].
    + rewrite IH. tauto.
Qed.

Lemma dict_get_Some_elem k v d : dict_get k d = Some v -> (k, v) ∈ d.
Proof.
  induction d as [|[k' v'] d IH]; simpl; [discriminate|].
  destruct (decide (k = k')) as [->|Hne].
  - intros [= ->]. left.
  - intros H. right. exact (IH H).
Qed.

Lemma elem_dict_get k v d : NoDup (keys d) -> (k, v) ∈ d -> dict_get k d = Some v.
Proof.
  induction d as [|[k' v'] d IH]; simpl; intros Hnd Hin.
  - apply elem_of_nil in Hin as [].
  - apply NoDup_cons in Hnd as [Hk' Hnd].
    apply elem_of_cons in Hin as [[= -> ->]|Hin].
    + rewrite decide_True; reflexivity.
    + destruct (decide (k = k')) as [->|Hne]; [|exact (IH Hnd Hin)].
      exfalso. apply Hk'. apply list_elem_of_fmap. exists (k', v). split; [reflexivity|exact Hin].
Qed.

Lemma keys_dict_set k v d :
  keys (dict_set k v d) = if decide (k ∈ keys d) then keys d else keys d ++ [k].
Proof.
  induction d as [|[k' v'] d IH].
  - destruct (decide (k ∈ keys [])) as [Hin|_]; [|reflexivity].
    apply elem_of_nil in Hin as [].
  - change (keys ((k', v') :: d)) with (k' :: keys d).
    cbn [dict_set]. destruct (decide (k = k')) as [->|Hne].
    + destruct (decide (k' ∈ k' :: keys d)) as [_|Hnin]; [reflexivity|].
      exfalso. apply Hnin. left.
    + change (keys ((k', v') :: dict_set k v d)) with (k' :: keys (dict_set k v d)).
      rewrite IH.
      destruct (decide (k ∈ keys d)) as [Hin|Hnin];
        destruct (decide (k ∈ k' :: keys d)) as [Hin'|Hnin']; try reflexivity.
      * exfalso. apply Hnin'. right. exact Hin.
      * apply elem_of_cons in Hin' as [->|Hin']; contradiction.
Qed.

Lemma dict_set_NoDup k v d : NoDup (keys d) -> NoDup (keys (dict_set k v d)).
Proof.
  intros Hnd. rewrite keys_dict_set. destruct (decide (k ∈ keys d)) as [Hin|Hnin].
  - exact Hnd.
  - apply NoDup_app. split; [exact Hnd|]. split.
    + intros x Hx Hx'. apply list_elem_of_singleton in Hx' as ->. exact (Hnin Hx).
    + apply NoDup_singleton.
Qed.
End Dict.

(** ** The table stage *)

Lemma insert_desc_perm r rows : insert_desc r rows ≡ₚ r :: rows.
Proof.
  induction rows as [|x rows IH]; simpl; [reflexivity|].
  destruct (call_count x <=? call_count r); [reflexivity|].
  rewrite IH. apply Permutation_swap.
Qed.

Lemma sort_desc_perm rows : sort_desc rows ≡ₚ rows.
Proof.
  induction rows as [|x rows IH]; simpl; [reflexivity|].
  rewrite insert_desc_perm, IH. reflexivity.
Qed.

Lemma with_columns_outcome d :
  with_columns d = match d with
                   | [] => Ok []
                   | _ :: _ => Raise ComputeError
                   end.
Proof. destruct d as [|[k ts] d]; reflexivity. Qed.

Lemma run_raises {frame} (frame_unique : list translation -> result frame) files order :
  (collect (as_completed order (submit files))).1 <> [] ->
  process_invocation_data frame_unique files order = Raise ComputeError.
Proof.
  unfold process_invocation_data.
  destruct (collect _) as [d translation_data]. simpl. intros Hd.
  rewrite with_columns_outcome. destruct d; [contradiction|reflexivity].
Qed.

(** C8: with two shards whose merged map holds a series of 3 timestamps
    and a series of 5, in that order, the table sorted by [call_count]
    would list 5 before 3; the run raises where the [time] column is mapped
    through [normalize_time_list] and never reaches the sort, whatever the
    library does for the translation frame. *)
Theorem table_stage_raises_before_sort :
  map (fun kv : string * list Z => (kv.1, length kv.2))
      (collect (as_completed [1%nat; 0%nat]
                  (submit [Frame [row_a; row_busy]; Frame [row_b]]))).1
  = [("5dac6055c9", 3%nat); ("ab3e2bec69", 5%nat)]
  /\ call_normalize_time_list (PlSeries [1441; 1; 1]) = Raise TypeError
  /\ call_normalize_time_list (PyList [1441; 1; 1]) = Ok [1440; 0; 0]
  /\ forall (frame : Type) (frame_unique : list translation -> result frame),
       process_invocation_data frame_unique
         [Frame [row_a; row_busy]; Frame [row_b]] [1%nat; 0%nat]
       = Raise ComputeError.
Proof.
  split; [vm_compute; reflexivity|]. split; [reflexivity|]. split; [reflexivity|].
  intros frame frame_unique. apply run_raises.
  vm_compute. discriminate.
Qed.

(** C9: two shards report the same function with the same trigger: two
    identical records are accumulated, and the translation table should
    hold the record once; the run raises in the table stage before the
    translation frame is built, so no translation table is assembled. *)
Theorem translation_frame_not_reached :
  (collect (as_completed [0%nat; 1%nat] (submit [Frame [row_a]; Frame [row_b]]))).2
  = [ Translation (VStr "o1") (VStr "a1") (VStr "f1") (VStr "http")
        "o1_a1_f1" "5dac6055c9";
      Translation (VStr "o1") (VStr "a1") (VStr "f1") (VStr "http")
        "o1_a1_f1" "5dac6055c9" ]
  /\ forall (frame : Type) (frame_unique : list translation -> result frame),
       process_invocation_data frame_unique [Frame [row_a]; Frame [row_b]]
         [0%nat; 1%nat]
       = Raise ComputeError.
Proof.
  split; [vm_compute; reflexivity|].
  intros frame frame_unique. apply run_raises.
  vm_compute. discriminate.
Qed.

(** ** Sparse expansion of a row *)

Lemma expand_minutes_Ok base row minutes acc ts :
  expand_minutes base row minutes acc = Ok ts ->
  ts = acc ++ expansion base row minutes
  /\ well_typed_minutes row minutes = true.
Proof.
  revert acc. induction minutes as [|minute rest IH]; intros acc; simpl.
  - intros [= <-]. rewrite app_nil_r. split; reflexivity.
  - unfold minute_copies. destruct (row !! pretty minute) as [[|z|s]|]; simpl.
    + discriminate.
    + destruct (0 <? z) eqn:Hz; simpl.
      * intros H. destruct (IH _ H) as [-> Hwt].
        rewrite <- app_assoc. split; [reflexivity|exact Hwt].
      * replace (Z.to_nat z) with 0%nat by lia. simpl. apply IH.
    + discriminate.
    + apply IH.
Qed.


Lemma count_occ_repeat_Z (t x : Z) (n : nat) :
  count_occ Z.eq_dec (repeat x n) t = if decide (x = t) then n else 0%nat.
Proof.
  induction n as [|n IH]; simpl.
  - destruct (decide (x = t)); reflexivity.
  - rewrite IH. destruct (Z.eq_dec x t) as [->|Hne]; destruct (decide _); congruence.
Qed.

Lemma expansion_count_absent base row minutes minute :
  minute ∉ minutes ->
  count_occ Z.eq_dec (expansion base row minutes) (base + minute) = 0%nat.
Proof.
  induction minutes as [|m rest IH]; simpl; [reflexivity|].
  rewrite not_elem_of_cons. intros [Hne Hnin].
  rewrite count_occ_app, count_occ_repeat_Z, decide_False by lia.
  exact (IH Hnin).
Qed.

Lemma expansion_count base row minutes minute :
  NoDup minutes -> minute ∈ minutes ->
  count_occ Z.eq_dec (expansion base row minutes) (base + minute)
  = minute_copies row minute.
Proof.
  induction 1 as [|m rest Hm Hnd IH]; simpl; intros Hin.
  - apply elem_of_nil in Hin as [].
  - rewrite count_occ_app, count_occ_repeat_Z.
    apply elem_of_cons in Hin as [->|Hin].
    + rewrite decide_True by reflexivity.
      rewrite expansion_count_absent by exact Hm. lia.
    + rewrite decide_False.
      * rewrite (IH Hin). reflexivity.
      * intros Heq. assert (m = minute) as -> by lia. contradiction.
Qed.

Lemma expansion_range base row minutes (lo hi : Z) :
  Forall (fun minute => lo <= minute <= hi) minutes ->
  Forall (fun t => base + lo <= t <= base + hi) (expansion base row minutes).
Proof.
  induction 1 as [|m rest Hm _ IH]; simpl; [constructor|].
  apply Forall_app. split; [|exact IH].
  apply Forall_forall. intros t Ht. apply list_elem_of_In, repeat_spec in Ht. lia.
Qed.

Lemma expansion_length base row minutes :
  length (expansion base row minutes)
  = sum_list (map (minute_copies row) minutes).
Proof.
  induction minutes as [|m rest IH]; simpl; [reflexivity|].
  rewrite length_app, repeat_length, IH. reflexivity.
Qed.

Lemma minutes_of_day_range :
  Forall (fun minute => 1 <= minute <= 1440) (seqZ 1 1440).
Proof. apply Forall_forall. intros m Hm. apply elem_of_seqZ in Hm. lia. Qed.


(** ** Decoding one shard *)

Lemma for_each_inv {S X} (P : S -> Prop) (body : S -> X -> result S) xs st st' :
  (forall s x s', x ∈ xs -> P s -> body s x = Ok s' -> P s') ->
  P st -> for_each body st xs = Ok st' -> P st'.
Proof.
  revert st. induction xs as [|x xs IH]; intros st Hstep Hst; simpl.
  - intros [= <-]. exact Hst.
  - destruct (body st x) as [s1|e] eqn:Hb; simpl; [|discriminate].
    apply IH.
    + intros s y s' Hy. apply Hstep. right. exact Hy.
    + apply (Hstep st x s1); [left|exact Hst|exact Hb].
Qed.

Lemma process_row_step base inv tr row st' :
  process_row base (inv, tr) row = Ok st' ->
  exists rec,
    row_record row = Some rec
    /\ well_typed_minutes row (seqZ 1 1440) = true
    /\ st' = (match expansion base row (seqZ 1 1440) with
              | [] => inv
              | _ :: _ =>
                  dict_set (new_hash_uuid rec) (expansion base row (seqZ 1 1440)) inv
              end, tr ++ [rec]).
Proof.
  intros H. apply process_row_Ok in H as (rec & ts & Hrec & Hts & ->).
  apply expand_minutes_Ok in Hts as [-> Hwt]. simpl.
  exists rec. split; [exact Hrec|]. split; [exact Hwt|reflexivity].
Qed.


Lemma expansion_in_day file_idx row :
  Forall (in_day file_idx) (expansion (file_idx * 24 * 60) row (seqZ 1 1440)).
Proof.
  eapply Forall_impl.
  - apply expansion_range, minutes_of_day_range.
  - intros t Ht. unfold in_day. simpl in Ht. lia.
Qed.

Lemma process_row_shard_inv file_idx st row st' :
  shard_inv file_idx st ->
  process_row (file_idx * 24 * 60) st row = Ok st' ->
  shard_inv file_idx st'.
Proof.
  destruct st as [inv tr]. intros [Hnd Hser] H.
  apply process_row_step in H as (rec & _ & _ & ->).
  pose proof (expansion_in_day file_idx row) as Hday.
  destruct (expansion (file_idx * 24 * 60) row (seqZ 1 1440)) as [|t ts] eqn:Hexp.
  - split; assumption.
  - split; simpl.
    + apply dict_set_NoDup, Hnd.
    + intros k ts'. destruct (decide (new_hash_uuid rec = k)) as [<-|Hne].
      * rewrite dict_get_set_eq. intros [= <-]. split; [discriminate|exact Hday].
      * rewrite dict_get_set_ne by exact Hne. apply Hser.
Qed.

Lemma process_file_shard_inv file file_idx :
  shard_inv file_idx (process_file file file_idx).
Proof.
  assert (Hempty : shard_inv file_idx ([], [])).
  { split; [constructor|]. intros k ts. discriminate. }
  unfold process_file, process_file_body.
  destruct file as [|rows]; [exact Hempty|].
  destruct (for_each _ _ rows) as [st|e] eqn:Hrun; [|exact Hempty].
  eapply for_each_inv; [|exact Hempty|exact Hrun].
  intros s x s' _. apply process_row_shard_inv.
Qed.

Lemma for_each_translations base rows inv0 tr0 inv tr :
  for_each (process_row base) (inv0, tr0) rows = Ok (inv, tr) ->
  exists recs,
    tr = tr0 ++ recs
    /\ Forall2 (fun row rec => row_record row = Some rec) rows recs.
Proof.
  revert inv0 tr0. induction rows as [|row rows IH]; intros inv0 tr0; cbn [for_each].
  - intros [= <- <-]. exists []. rewrite app_nil_r. split; constructor.
  - destruct (process_row base (inv0, tr0) row) as [st1|e] eqn:Hrow;
      cbn [bind]; [|discriminate].
    apply process_row_step in Hrow as (rec & Hrec & _ & ->).
    intros H. apply IH in H as (recs & -> & Hall).
    exists (rec :: recs). rewrite <- app_assoc. split; [reflexivity|].
    constructor; assumption.
Qed.

Lemma for_each_untouched base rows st st' k :
  for_each (process_row base) st rows = Ok st' ->
  (forall row, row ∈ rows -> row_identity row <> Some k) ->
  dict_get k st'.1 = dict_get k st.1.
Proof.
  intros Hrun Hother.
  refine (for_each_inv (fun s : collectors => dict_get k s.1 = dict_get k st.1)
            _ rows st st' _ eq_refl Hrun).
  intros [inv tr] row s' Hrow Hsame Hstep.
  apply process_row_step in Hstep as (rec & Hrec & _ & ->).
  destruct (expansion base row (seqZ 1 1440)); [exact Hsame|].
  simpl. rewrite dict_get_set_ne; [exact Hsame|].
  intros Hk. apply (Hother row Hrow). unfold row_identity.
  rewrite Hrec. simpl. rewrite Hk. reflexivity.
Qed.

Lemma for_each_series base rows inv0 tr0 inv tr row k :
  for_each (process_row base) (inv0, tr0) rows = Ok (inv, tr) ->
  NoDup (omap row_identity rows) ->
  (forall row' id, row' ∈ rows -> row_identity row' = Some id -> dict_get id inv0 = None) ->
  row ∈ rows -> row_identity row = Some k ->
  dict_get k inv
  = match expansion base row (seqZ 1 1440) with
    | [] => None
    | e => Some e
    end.
Proof.
  revert inv0 tr0. induction rows as [|row0 rows IH]; intros inv0 tr0; cbn [for_each].
  - intros _ _ _ Hin. apply elem_of_nil in Hin as [].
  - destruct (process_row base (inv0, tr0) row0) as [[inv1 tr1]|e] eqn:Hrow0;
      cbn [bind]; [|discriminate].
    intros Hrun Hnd Hfresh Hin Hk.
    apply process_row_step in Hrow0 as (rec & Hrec & _ & Hst).
    assert (Hid : row_identity row0 = Some (new_hash_uuid rec)).
    { unfold row_identity. rewrite Hrec. reflexivity. }
    cbn [omap list_omap] in Hnd. change (list_omap _ _ ?f ?l) with (omap f l) in Hnd.
    rewrite Hid in Hnd. apply NoDup_cons in Hnd as [Hnew Hnd].
    assert (Hrest : forall row', row' ∈ rows ->
                    row_identity row' <> Some (new_hash_uuid rec)).
    { intros row' Hrow' Hid'. apply Hnew. apply list_elem_of_omap.
      exists row'. split; assumption. }
    assert (Hold : dict_get (new_hash_uuid rec) inv0 = None).
    { apply (Hfresh row0); [left|exact Hid]. }
    injection Hst as -> _.
    apply elem_of_cons in Hin as [->|Hin].
    + assert (k = new_hash_uuid rec) as -> by congruence.
      pose proof (for_each_untouched _ _ _ _ _ Hrun Hrest) as Hsame.
      cbn [fst] in Hsame. rewrite Hsame.
      destruct (expansion base row0 (seqZ 1 1440)); [exact Hold|].
      apply dict_get_set_eq.
    + apply (IH _ _ Hrun Hnd); [|exact Hin|exact Hk].
      intros row' id Hrow' Hid'.
      assert (Hne : new_hash_uuid rec <> id).
      { intros <-. exact (Hrest row' Hrow' Hid'). }
      destruct (expansion base row0 (seqZ 1 1440)).
      * apply (Hfresh row'); [right; exact Hrow'|exact Hid'].
      * rewrite dict_get_set_ne by exact Hne.
        apply (Hfresh row'); [right; exact Hrow'|exact Hid'].
Qed.

(** The part of the expansion that holds: a minute field [minute] in
    1..1440 with a value [c > 0] puts exactly [c] copies of the timestamp
    [file_idx * 1440 + minute] in the series that the row stores for its
    identity when it is processed; that series is still the series of the
    identity at the end of the shard when no other row of the shard
    carries the identity; and every timestamp of every series of the shard
    lies in [file_idx * 1440 + 1, file_idx * 1440 + 1440]. *)
Lemma minute_field_expansion (file_idx : Z) :
  (forall st st' row (minute c : Z),
     process_row (file_idx * 24 * 60) st row = Ok st' ->
     1 <= minute <= 1440 ->
     row !! pretty minute = Some (VInt c) ->
     0 < c ->
     exists func_id timestamps,
       row_identity row = Some func_id
       /\ dict_get func_id st'.1 = Some timestamps
       /\ count_occ Z.eq_dec timestamps (file_idx * 1440 + minute) = Z.to_nat c
       /\ Forall (in_day file_idx) timestamps)
  /\ (forall rows inv tr row (minute c : Z),
        process_file_body (Frame rows) file_idx = Ok (inv, tr) ->
        distinct_identities (Frame rows) ->
        row ∈ rows ->
        1 <= minute <= 1440 ->
        row !! pretty minute = Some (VInt c) ->
        0 < c ->
        exists func_id timestamps,
          row_identity row = Some func_id
          /\ dict_get func_id inv = Some timestamps
          /\ count_occ Z.eq_dec timestamps (file_idx * 1440 + minute) = Z.to_nat c)
  /\ (forall file func_id timestamps,
        dict_get func_id (process_file file file_idx).1 = Some timestamps ->
        Forall (in_day file_idx) timestamps).
Proof.
  assert (Hcount : forall row (minute c : Z),
    1 <= minute <= 1440 -> row !! pretty minute = Some (VInt c) ->
    count_occ Z.eq_dec (expansion (file_idx * 24 * 60) row (seqZ 1 1440))
      (file_idx * 1440 + minute) = Z.to_nat c).
  { intros row minute c Hminute Hcell.
    replace (file_idx * 1440 + minute) with (file_idx * 24 * 60 + minute) by lia.
    rewrite expansion_count.
    - unfold minute_copies. rewrite Hcell. reflexivity.
    - apply NoDup_seqZ.
    - apply elem_of_seqZ. lia. }
  split; [|split].
  - intros [inv tr] st' row minute c Hrow Hminute Hcell Hc.
    apply process_row_step in Hrow as (rec & Hrec & _ & ->).
    specialize (Hcount row minute c Hminute Hcell).
    pose proof (expansion_in_day file_idx row) as Hday.
    exists (new_hash_uuid rec), (expansion (file_idx * 24 * 60) row (seqZ 1 1440)).
    split; [unfold row_identity; rewrite Hrec; reflexivity|].
    split; [|split; [exact Hcount|exact Hday]].
    destruct (expansion (file_idx * 24 * 60) row (seqZ 1 1440)) eqn:Hexp.
    + simpl in Hcount. lia.
    + simpl. apply dict_get_set_eq.
  - intros rows inv tr row minute c Hrun Hdistinct Hin Hminute Hcell Hc.
    specialize (Hcount row minute c Hminute Hcell).
    unfold process_file_body in Hrun.
    destruct (for_each_translations _ _ _ _ _ _ Hrun) as (recs & _ & Hrecs).
    destruct (row_identity row) as [k|] eqn:Hk.
    2:{ exfalso. apply list_elem_of_lookup in Hin as [i Hi].
        destruct (Forall2_lookup_l _ _ _ _ _ Hrecs Hi) as (rec & _ & Hrec).
        unfold row_identity in Hk. rewrite Hrec in Hk. discriminate. }
    exists k, (expansion (file_idx * 24 * 60) row (seqZ 1 1440)).
    split; [reflexivity|]. split; [|exact Hcount].
    rewrite (for_each_series _ _ _ _ _ _ row k Hrun Hdistinct) by (reflexivity || assumption).
    destruct (expansion (file_idx * 24 * 60) row (seqZ 1 1440)); [|reflexivity].
    simpl in Hcount. lia.
  - intros file func_id timestamps Hget.
    destruct (process_file_shard_inv file file_idx) as [_ Hser].
    exact (proj2 (Hser _ _ Hget)).
Qed.

Lemma minute_field_expansion_witness :
  exists func_id timestamps,
    row_identity row_busy = Some func_id
    /\ dict_get func_id (process_file (Frame [row_busy]) 1).1 = Some timestamps
    /\ count_occ Z.eq_dec timestamps (1 * 1440 + 5) = Z.to_nat 3
    /\ Forall (in_day 1) timestamps.
Proof.
  apply (proj1 (minute_field_expansion 1)
           ([], []) (process_file (Frame [row_busy]) 1) row_busy 5 3).
  - vm_compute. reflexivity.
  - lia.
  - vm_compute. reflexivity.
  - lia.
Defined.

(** C2: in a shard with two rows for one function, the first row has
    minute 1 = 2 and should leave 2 copies of timestamp 1 in the series of
    its identity for the shard (as it does when it is the only row); the
    series [process_file] returns for the identity is the second row's
    alone and holds no copy of timestamp 1. *)
Theorem repeated_identity_drops_minute_field :
  row_a !! pretty 1 = Some (VInt 2)
  /\ row_identity row_a = Some "5dac6055c9"
  /\ row_identity row_c = Some "5dac6055c9"
  /\ dict_get "5dac6055c9" (process_file (Frame [row_a]) 0).1 = Some [1; 1]
  /\ count_occ Z.eq_dec [1; 1] (0 * 1440 + 1) = Z.to_nat 2
  /\ process_file_body (Frame [row_a; row_c]) 0
     = Ok ([("5dac6055c9", [2])],
           [ Translation (VStr "o1") (VStr "a1") (VStr "f1") (VStr "http")
               "o1_a1_f1" "5dac6055c9";
             Translation (VStr "o1") (VStr "a1") (VStr "f1") (VStr "timer")
               "o1_a1_f1" "5dac6055c9" ])
  /\ dict_get "5dac6055c9" (process_file (Frame [row_a; row_c]) 0).1 = Some [2]
  /\ count_occ Z.eq_dec [2] (0 * 1440 + 1) = 0%nat.
Proof.
  repeat (split; [vm_compute; reflexivity|]). vm_compute. reflexivity.
Qed.

(** ** Merging the shards *)

Lemma merge_invocations_get k acc fi :
  NoDup (keys fi) ->
  dict_get k (merge_invocations acc fi)
  = join_series (dict_get k acc) (dict_get k fi).
Proof.
  unfold merge_invocations. revert acc.
  induction fi as [|[k0 ts] fi IH]; intros acc Hnd.
  - simpl. destruct (dict_get k acc); reflexivity.
  - change (keys ((k0, ts) :: fi)) with (k0 :: keys fi) in Hnd.
    apply NoDup_cons in Hnd as [Hk0 Hnd].
    cbn [fold_left dict_get]. rewrite (IH _ Hnd).
    destruct (decide (k = k0)) as [->|Hne].
    + apply dict_get_None in Hk0. rewrite Hk0.
      destruct (dict_get k0 acc) eqn:E; rewrite dict_get_set_eq; reflexivity.
    + destruct (dict_get k0 acc); rewrite dict_get_set_ne by congruence; reflexivity.
Qed.

Lemma merge_invocations_NoDup acc fi :
  NoDup (keys acc) -> NoDup (keys (merge_invocations acc fi)).
Proof.
  unfold merge_invocations. revert acc.
  induction fi as [|[k0 ts] fi IH]; intros acc Hnd; [exact Hnd|].
  cbn [fold_left]. apply IH.
  destruct (dict_get k0 acc); apply dict_set_NoDup, Hnd.
Qed.

Lemma join_series_perm a a' b b' :
  option_Forall2 Permutation a a' -> option_Forall2 Permutation b b' ->
  option_Forall2 Permutation (join_series a b) (join_series a' b').
Proof.
  intros [x x' Hx|] [y y' Hy|]; simpl; constructor; try assumption.
  apply Permutation_app; assumption.
Qed.

Lemma join_series_swap a a' b c :
  option_Forall2 Permutation a a' ->
  option_Forall2 Permutation
    (join_series (join_series a b) c) (join_series (join_series a' c) b).
Proof.
  intros [x x' Hx|]; destruct b as [y|], c as [z|]; simpl; constructor;
    try assumption; try reflexivity.
  - rewrite <- !app_assoc, Hx. apply Permutation_app_head, Permutation_app_comm.
  - rewrite Hx. reflexivity.
  - rewrite Hx. reflexivity.
  - apply Permutation_app_comm.
Qed.

Lemma join_series_assoc a b c :
  join_series (join_series a b) c = join_series a (join_series b c).
Proof.
  destruct a, b, c; simpl; try reflexivity. rewrite app_assoc. reflexivity.
Qed.

Lemma same_series_refl d : same_series d d.
Proof. intros k. destruct (dict_get k d); constructor. reflexivity. Qed.

Lemma same_series_trans d1 d2 d3 :
  same_series d1 d2 -> same_series d2 d3 -> same_series d1 d3.
Proof.
  intros H12 H23 k. specialize (H12 k). specialize (H23 k).
  destruct H12 as [x y Hxy|]; inversion H23; subst; constructor.
  etransitivity; eassumption.
Qed.

Lemma merge_file_same main main' file :
  NoDup (keys file.1) ->
  same_collectors main main' ->
  same_collectors (merge_file main file) (merge_file main' file).
Proof.
  intros Hnd [Hs Ht]. split; simpl.
  - intros k. rewrite !merge_invocations_get by exact Hnd.
    apply join_series_perm; [apply Hs|]. apply same_series_refl.
  - apply Permutation_app; [exact Ht|reflexivity].
Qed.

Lemma merge_file_swap main main' x y :
  NoDup (keys x.1) -> NoDup (keys y.1) ->
  same_collectors main main' ->
  same_collectors (merge_file (merge_file main y) x) (merge_file (merge_file main' x) y).
Proof.
  intros Hx Hy [Hs Ht]. split; simpl.
  - intros k. rewrite !merge_invocations_get by assumption.
    apply join_series_swap, Hs.
  - rewrite <- !app_assoc, Ht.
    apply Permutation_app_head, Permutation_app_comm.
Qed.

Lemma fold_merge_same completed main main' :
  Forall (fun file : collectors => NoDup (keys file.1)) completed ->
  same_collectors main main' ->
  same_collectors (fold_left merge_file completed main)
                  (fold_left merge_file completed main').
Proof.
  intros Hwf. revert main main'.
  induction Hwf as [|file completed Hfile _ IH]; intros main main' Hsame; simpl.
  - exact Hsame.
  - apply IH, merge_file_same; assumption.
Qed.

Lemma same_collectors_trans a b c :
  same_collectors a b -> same_collectors b c -> same_collectors a c.
Proof.
  intros [Hs1 Ht1] [Hs2 Ht2]. split.
  - eapply same_series_trans; eassumption.
  - etransitivity; eassumption.
Qed.

Lemma fold_merge_perm completed completed' main main' :
  completed ≡ₚ completed' ->
  Forall (fun file : collectors => NoDup (keys file.1)) completed ->
  same_collectors main main' ->
  same_collectors (fold_left merge_file completed main)
                  (fold_left merge_file completed' main').
Proof.
  intros Hperm. revert main main'.
  induction Hperm as [|x l l' Hperm IH|x y l|l l' l'' H1 IH1 H2 IH2];
    intros main main' Hwf Hsame.
  - exact Hsame.
  - apply Forall_cons in Hwf as [Hx Hwf]. simpl.
    apply IH; [exact Hwf|]. apply merge_file_same; assumption.
  - apply Forall_cons in Hwf as [Hy Hwf]. apply Forall_cons in Hwf as [Hx Hwf].
    simpl. apply fold_merge_same; [exact Hwf|].
    apply merge_file_swap; assumption.
  - eapply same_collectors_trans.
    + apply IH1; [exact Hwf|exact Hsame].
    + apply IH2.
      * rewrite <- H1. exact Hwf.
      * split; [apply same_series_refl|reflexivity].
Qed.

Lemma submit_lookup files (i : nat) :
  submit files !! i = (fun file => process_file file (Z.of_nat i)) <$> files !! i.
Proof. unfold submit. apply list_lookup_imap. Qed.

Lemma submit_keys_NoDup files :
  Forall (fun file : collectors => NoDup (keys file.1)) (submit files).
Proof.
  apply Forall_lookup. intros i r Hr. rewrite submit_lookup in Hr.
  destruct (files !! i) as [file|]; [|discriminate]. injection Hr as <-.
  apply process_file_shard_inv.
Qed.

Lemma as_completed_elem {A} order (futures : list A) x :
  x ∈ as_completed order futures -> x ∈ futures.
Proof.
  unfold as_completed. rewrite list_elem_of_omap. intros (i & _ & Hi).
  apply list_elem_of_lookup. exists i. exact Hi.
Qed.

Lemma as_completed_keys_NoDup files order :
  Forall (fun file : collectors => NoDup (keys file.1))
         (as_completed order (submit files)).
Proof.
  apply Forall_forall. intros r Hr. apply as_completed_elem in Hr.
  pose proof (submit_keys_NoDup files) as H.
  rewrite Forall_forall in H. exact (H r Hr).
Qed.

Lemma as_completed_perm {A} order order' (futures : list A) :
  order ≡ₚ order' -> as_completed order futures ≡ₚ as_completed order' futures.
Proof. intros H. unfold as_completed. rewrite H. reflexivity. Qed.

(** C5: the merge of partial results is commutative and associative up to
    the order inside each series, and whatever the order in which the
    tasks complete, the merged series map holds the same multiset of
    timestamps for every identity (and the accumulated records are the
    same up to order). *)
Theorem merge_order_independent (invocation_files : list shard) (order1 order2 : list nat) :
  order1 ≡ₚ order2 ->
  let main1 := collect (as_completed order1 (submit invocation_files)) in
  let main2 := collect (as_completed order2 (submit invocation_files)) in
  (forall func_id,
     option_Forall2 Permutation (dict_get func_id main1.1) (dict_get func_id main2.1))
  /\ main1.2 ≡ₚ main2.2
  /\ (forall a b : pydict (list Z),
        NoDup (keys a) -> NoDup (keys b) ->
        same_series (merge_invocations a b) (merge_invocations b a))
  /\ (forall a b c : pydict (list Z),
        NoDup (keys b) -> NoDup (keys c) ->
        same_series (merge_invocations (merge_invocations a b) c)
                    (merge_invocations a (merge_invocations b c))).
Proof.
  intros Hperm main1 main2.
  assert (Hsame : same_collectors main1 main2).
  { apply fold_merge_perm.
    - apply as_completed_perm, Hperm.
    - apply as_completed_keys_NoDup.
    - split; [apply same_series_refl|reflexivity]. }
  destruct Hsame as [Hs Ht].
  split; [exact Hs|]. split; [exact Ht|]. split.
  - intros a b Ha Hb k. rewrite !merge_invocations_get by assumption.
    destruct (dict_get k a), (dict_get k b); simpl; constructor;
      try reflexivity. apply Permutation_app_comm.
  - intros a b c Hb Hc k.
    rewrite (merge_invocations_get k (merge_invocations a b) c Hc).
    rewrite (merge_invocations_get k a b Hb).
    rewrite (merge_invocations_get k a (merge_invocations b c))
      by (apply merge_invocations_NoDup; exact Hb).
    rewrite (merge_invocations_get k b c Hc).
    rewrite join_series_assoc.
    destruct (join_series _ _); constructor. reflexivity.
Qed.

Lemma merge_order_independent_witness :
  [1%nat; 0%nat] ≡ₚ [0%nat; 1%nat]
  /\ (collect (as_completed [1%nat; 0%nat] (submit [Frame [row_a]; Frame [row_b]]))).1
     = [("5dac6055c9", [1441; 1; 1])]
  /\ (collect (as_completed [0%nat; 1%nat] (submit [Frame [row_a]; Frame [row_b]]))).1
     = [("5dac6055c9", [1; 1; 1441])]
  /\ forall func_id,
       option_Forall2 Permutation
         (dict_get func_id
            (collect (as_completed [1%nat; 0%nat] (submit [Frame [row_a]; Frame [row_b]]))).1)
         (dict_get func_id
            (collect (as_completed [0%nat; 1%nat] (submit [Frame [row_a]; Frame [row_b]]))).1).
Proof.
  split; [apply Permutation_swap|].
  split; [vm_compute; reflexivity|].
  split; [vm_compute; reflexivity|].
  exact (proj1 (merge_order_independent [Frame [row_a]; Frame [row_b]]
                  [1%nat; 0%nat] [0%nat; 1%nat]
                  (Permutation_swap 0%nat 1%nat []))).
Defined.

(** ** Failed shards *)

Lemma merge_file_empty main : merge_file main ([], []) = main.
Proof. destruct main as [inv tr]. unfold merge_file. simpl. rewrite app_nil_r. reflexivity. Qed.

Lemma as_completed_cons {A} (j : nat) order (futures : list A) :
  as_completed (j :: order) futures
  = match futures !! j with
    | Some r => r :: as_completed order futures
    | None => as_completed order futures
    end.
Proof. reflexivity. Qed.

Lemma fold_merge_skip_empty (futures : list collectors) (i : nat) order main :
  @lookup nat collectors (list collectors) _ i futures = Some ([], []) ->
  fold_left merge_file (as_completed order futures) main
  = fold_left merge_file (as_completed (filter (fun j => j <> i) order) futures) main.
Proof.
  intros Hi. revert main.
  induction order as [|j order IH]; intros main; [reflexivity|].
  rewrite filter_cons, as_completed_cons.
  destruct (decide (j <> i)) as [Hne|Heq].
  - rewrite as_completed_cons. destruct (futures !! j); [simpl|]; apply IH.
  - assert (j = i) as -> by (destruct (decide (j = i)); [assumption|contradiction]).
    rewrite Hi. simpl. rewrite merge_file_empty. apply IH.
Qed.

(** What a failed shard leaves behind: its result is the empty pair, and
    the merged collectors are those of the run in which the shard is an
    empty table at the same index, and those of the run in which its task
    is left out of the merge. *)
Lemma failed_shard_leaves_collectors files order (i : nat) file e :
  files !! i = Some file ->
  process_file_body file (Z.of_nat i) = Raise e ->
  process_file file (Z.of_nat i) = ([], [])
  /\ collect (as_completed order (submit files))
     = collect (as_completed order (submit (<[i := Frame []]> files)))
  /\ collect (as_completed order (submit files))
     = collect (as_completed (filter (fun j => j <> i) order) (submit files)).
Proof.
  intros Hfile Hraise.
  assert (Hempty : process_file file (Z.of_nat i) = ([], [])).
  { unfold process_file. rewrite Hraise. reflexivity. }
  assert (Hsubmit : submit files = submit (<[i := Frame []]> files)).
  { apply list_eq. intros j. rewrite !submit_lookup.
    destruct (decide (j = i)) as [->|Hne].
    - rewrite list_lookup_insert_eq by (eapply lookup_lt_Some; exact Hfile).
      rewrite Hfile. simpl. rewrite Hempty. reflexivity.
    - rewrite list_lookup_insert_ne by congruence. reflexivity. }
  split; [exact Hempty|]. split; [rewrite Hsubmit; reflexivity|].
  unfold collect.
  rewrite (fold_merge_skip_empty (submit files) i); [reflexivity|].
  rewrite submit_lookup, Hfile. simpl. rewrite Hempty. reflexivity.
Qed.

(** C6: the second of three shards has a null in a minute field: the body
    of [process_file] raises, [process_file] returns the empty pair and the
    merged collectors are those of the other two shards alone; the other
    two shards have invocations, and the run does not complete: it raises
    in the table stage. *)
Theorem run_with_failed_shard_raises :
  process_file_body (Frame [row_busy; row_null]) 1 = Raise TypeError
  /\ process_file (Frame [row_busy; row_null]) 1 = ([], [])
  /\ process_file_body Unreadable 1 = Raise ReadError
  /\ process_file Unreadable 1 = ([], [])
  /\ collect (as_completed [2%nat; 1%nat; 0%nat]
                (submit [Frame [row_a]; Frame [row_busy; row_null]; Frame [row_b]]))
     = collect (as_completed [2%nat; 0%nat]
                  (submit [Frame [row_a]; Frame [row_busy; row_null]; Frame [row_b]]))
  /\ (collect (as_completed [2%nat; 1%nat; 0%nat]
                 (submit [Frame [row_a]; Frame [row_busy; row_null]; Frame [row_b]]))).1
     = [("5dac6055c9", [2881; 1; 1])]
  /\ forall (frame : Type) (frame_unique : list translation -> result frame),
       process_invocation_data frame_unique
         [Frame [row_a]; Frame [row_busy; row_null]; Frame [row_b]]
         [2%nat; 1%nat; 0%nat]
       = Raise ComputeError.
Proof.
  split; [vm_compute; reflexivity|]. split; [vm_compute; reflexivity|].
  split; [reflexivity|]. split; [reflexivity|].
  split; [vm_compute; reflexivity|]. split; [vm_compute; reflexivity|].
  intros frame frame_unique. apply run_raises. vm_compute. discriminate.
Qed.

(** ** Rows without invocations *)








(** ** Conservation of the invocation count *)

(** C1: a shard with two rows for one function (minute 1 = 2 in the first
    row, minute 2 = 1 in the second) decodes without error; the series of
    the second row replaces the series of the first, and the merged map
    holds a series of length 1 for the function, the length [call_count]
    is computed from, where its minute fields add up to 3. *)
Theorem duplicate_identity_loses_counts :
  row_identity row_a = Some "5dac6055c9"
  /\ row_identity row_c = Some "5dac6055c9"
  /\ (process_file (Frame [row_a]) 0).1 = [("5dac6055c9", [1; 1])]
  /\ (exists tr,
        process_file_body (Frame [row_a; row_c]) 0 = Ok ([("5dac6055c9", [2])], tr))
  /\ (collect (as_completed [0%nat] (submit [Frame [row_a; row_c]]))).1
     = [("5dac6055c9", [2])]
  /\ Z.of_nat (series_len "5dac6055c9"
                 (collect (as_completed [0%nat] (submit [Frame [row_a; row_c]]))).1) = 1
  /\ dataset_total "5dac6055c9" [Frame [row_a; row_c]] = 3.
Proof.
  split; [vm_compute; reflexivity|].
  split; [vm_compute; reflexivity|].
  split; [vm_compute; reflexivity|].
  split; [eexists; vm_compute; reflexivity|].
  split; [vm_compute; reflexivity|].
  split; vm_compute; reflexivity.
Qed.

(** Where the rows of every shard carry pairwise distinct identities (and
    the minute fields are counts), nothing is lost: the rest of the section
    proves that the length of a merged series is then the total of the
    minute fields of its identity. *)

Lemma series_len_merge k acc fi :
  NoDup (keys fi) ->
  series_len k (merge_invocations acc fi) = (series_len k acc + series_len k fi)%nat.
Proof.
  intros Hnd. unfold series_len. rewrite merge_invocations_get by exact Hnd.
  destruct (dict_get k acc), (dict_get k fi); simpl; try lia.
  apply length_app.
Qed.

Lemma fold_merge_len k completed main :
  Forall (fun file : collectors => NoDup (keys file.1)) completed ->
  series_len k (fold_left merge_file completed main).1
  = (series_len k main.1
     + sum_list_with (fun file : collectors => series_len k file.1) completed)%nat.
Proof.
  intros Hwf. revert main.
  induction Hwf as [|file completed Hfile _ IH]; intros main; simpl; [lia|].
  rewrite IH. simpl. rewrite series_len_merge by exact Hfile. lia.
Qed.

Lemma fold_merge_NoDup completed main :
  NoDup (keys main.1) -> NoDup (keys (fold_left merge_file completed main).1).
Proof.
  revert main. induction completed as [|file completed IH]; intros main Hnd; simpl.
  - exact Hnd.
  - apply IH. simpl. apply merge_invocations_NoDup, Hnd.
Qed.

Lemma as_completed_suffix {A} (done todo : list A) :
  as_completed (seq (length done) (length todo)) (done ++ todo) = todo.
Proof.
  revert done. induction todo as [|x todo IH]; intros done; [reflexivity|].
  cbn [length seq]. rewrite as_completed_cons, list_lookup_middle by reflexivity.
  f_equal. specialize (IH (done ++ [x])).
  rewrite length_app, <- app_assoc in IH. simpl in IH.
  rewrite Nat.add_1_r in IH. exact IH.
Qed.

Lemma as_completed_all {A} (futures : list A) :
  as_completed (seq 0 (length futures)) futures = futures.
Proof. exact (as_completed_suffix [] futures). Qed.

Lemma minute_copies_count row minute :
  0 <= minute_count row minute ->
  Z.of_nat (minute_copies row minute) = minute_count row minute.
Proof.
  unfold minute_copies, minute_count.
  destruct (row !! pretty minute) as [[|c|]|]; try reflexivity.
  intros Hc. apply Z2Nat.id, Hc.
Qed.

Lemma expansion_total base row minutes :
  (forall minute, 0 <= minute_count row minute) ->
  Z.of_nat (length (expansion base row minutes))
  = sumZ (map (minute_count row) minutes).
Proof.
  intros Hnn. induction minutes as [|m rest IH]; simpl; [reflexivity|].
  rewrite length_app, repeat_length, Nat2Z.inj_add, IH, minute_copies_count by apply Hnn.
  reflexivity.
Qed.

Lemma for_each_series_len base rows inv0 tr0 inv tr k :
  for_each (process_row base) (inv0, tr0) rows = Ok (inv, tr) ->
  NoDup (omap row_identity rows) ->
  (forall row id, row ∈ rows -> row_identity row = Some id -> dict_get id inv0 = None) ->
  series_len k inv
  = (series_len k inv0
     + sum_list_with (fun row => length (expansion base row (seqZ 1 1440)))
         (filter (fun row => row_identity row = Some k) rows))%nat.
Proof.
  revert inv0 tr0. induction rows as [|row rows IH]; intros inv0 tr0; cbn [for_each].
  - intros [= <- <-] _ _. simpl. lia.
  - destruct (process_row base (inv0, tr0) row) as [[inv1 tr1]|e] eqn:Hrow;
      cbn [bind]; [|discriminate].
    intros Hrun Hnd Hfresh.
    apply process_row_step in Hrow as (rec & Hrec & _ & Hst).
    assert (Hid : row_identity row = Some (new_hash_uuid rec)).
    { unfold row_identity. rewrite Hrec. reflexivity. }
    cbn [omap list_omap] in Hnd. change (list_omap _ _ ?f ?l) with (omap f l) in Hnd.
    rewrite Hid in Hnd. apply NoDup_cons in Hnd as [Hnew Hnd].
    assert (Hold : dict_get (new_hash_uuid rec) inv0 = None).
    { apply (Hfresh row); [left|exact Hid]. }
    assert (Hget : forall k',
      dict_get k' inv1
      = if decide (new_hash_uuid rec = k') then
          match expansion base row (seqZ 1 1440) with
          | [] => None
          | e => Some e
          end
        else dict_get k' inv0).
    { intros k'. injection Hst as -> _.
      destruct (expansion base row (seqZ 1 1440)) eqn:Hexp;
        destruct (decide (new_hash_uuid rec = k')) as [<-|Hne]; try reflexivity.
      - exact Hold.
      - apply dict_get_set_eq.
      - apply dict_get_set_ne, Hne. }
    rewrite (IH inv1 tr1 Hrun Hnd).
    + assert (Hlen : series_len k inv1
                     = (series_len k inv0
                        + if decide (row_identity row = Some k)
                          then length (expansion base row (seqZ 1 1440))
                          else 0)%nat).
      { unfold series_len. rewrite Hget, Hid.
        destruct (decide (new_hash_uuid rec = k)) as [<-|Hne].
        - rewrite Hold. destruct (decide (_ = _)); [|congruence].
          destruct (expansion base row (seqZ 1 1440)); reflexivity.
        - destruct (decide (_ = _)); [congruence|]. lia. }
      rewrite Hlen, filter_cons.
      destruct (decide (row_identity row = Some k)); simpl; lia.
    + intros row' id' Hrow' Hid'. rewrite Hget, decide_False.
      * apply (Hfresh row'); [right; exact Hrow'|exact Hid'].
      * intros <-. apply Hnew. apply list_elem_of_omap.
        exists row'. split; assumption.
Qed.

Lemma sumZ_nonneg_rows base k rows :
  Forall (fun row => forall minute, 0 <= minute_count row minute) rows ->
  Z.of_nat (sum_list_with (fun row => length (expansion base row (seqZ 1 1440)))
              (filter (fun row => row_identity row = Some k) rows))
  = sumZ (map row_total (filter (fun row => row_identity row = Some k) rows)).
Proof.
  induction 1 as [|row rows Hrow _ IH]; [reflexivity|].
  rewrite filter_cons. destruct (decide (row_identity row = Some k)); [|exact IH].
  simpl. rewrite Nat2Z.inj_add, IH, expansion_total by exact Hrow. reflexivity.
Qed.

Lemma shard_series_total k file file_idx :
  distinct_identities file -> counts_nonneg file ->
  Z.of_nat (series_len k (process_file file file_idx).1) = shard_total k file file_idx.
Proof.
  intros Hdistinct Hnn. unfold process_file, shard_total.
  destruct file as [|rows]; [reflexivity|].
  destruct (process_file_body (Frame rows) file_idx) as [[inv tr]|e] eqn:Hrun;
    [|reflexivity].
  unfold process_file_body in Hrun. simpl.
  rewrite (for_each_series_len _ _ _ _ _ _ k Hrun Hdistinct) by reflexivity.
  simpl. apply sumZ_nonneg_rows, Hnn.
Qed.

Lemma imap_series_total k (f : nat -> shard -> collectors) (g : nat -> shard -> Z) files :
  (forall idx file, file ∈ files -> Z.of_nat (series_len k (f idx file).1) = g idx file) ->
  Z.of_nat (sum_list_with (fun file : collectors => series_len k file.1) (imap f files))
  = sumZ (imap g files).
Proof.
  revert f g. induction files as [|file files IH]; intros f g Hfg; [reflexivity|].
  rewrite !imap_cons. simpl. rewrite Nat2Z.inj_add, (Hfg 0%nat file) by left.
  f_equal. apply IH. intros idx file' Hin. apply Hfg. right. exact Hin.
Qed.

Lemma submit_total k files :
  Forall (fun file => distinct_identities file /\ counts_nonneg file) files ->
  Z.of_nat (sum_list_with (fun file : collectors => series_len k file.1) (submit files))
  = dataset_total k files.
Proof.
  intros Hall. unfold submit, dataset_total. apply imap_series_total.
  intros idx file Hin. rewrite Forall_forall in Hall.
  destruct (Hall file Hin) as [Hd Hn]. apply shard_series_total; assumption.
Qed.

Lemma conservation_for_distinct_identities (invocation_files : list shard)
    (order : list nat) (func_id : string) :
  order ≡ₚ seq 0 (length invocation_files) ->
  Forall (fun file => distinct_identities file /\ counts_nonneg file) invocation_files ->
  Z.of_nat (series_len func_id (collect (as_completed order (submit invocation_files))).1)
  = dataset_total func_id invocation_files.
Proof.
  intros Horder Hfiles. unfold collect.
  rewrite fold_merge_len by apply as_completed_keys_NoDup.
  assert (Hperm : as_completed order (submit invocation_files) ≡ₚ submit invocation_files).
  { rewrite (as_completed_perm _ _ _ Horder).
    replace (length invocation_files) with (length (submit invocation_files))
      by (unfold submit; apply length_imap).
    rewrite as_completed_all. reflexivity. }
  rewrite Hperm. simpl. apply submit_total, Hfiles.
Qed.

(** * Further properties of the pipeline *)

(** ** Normalization *)

Lemma fold_min_unique rest t0 m :
  m ∈ t0 :: rest -> Forall (fun t => m <= t) (t0 :: rest) ->
  fold_left Z.min rest t0 = m.
Proof.
  intros Hin Hle. destruct (fold_min_spec rest t0) as [Hin' Hle'].
  rewrite Forall_forall in Hle, Hle'.
  specialize (Hle _ Hin'). specialize (Hle' _ Hin). lia.
Qed.

Lemma normalize_by_min l m :
  m ∈ l -> Forall (fun t => m <= t) l ->
  normalize_time_list l = map (fun t => t - m) l.
Proof.
  destruct l as [|t0 rest]; intros Hin Hle; [reflexivity|].
  unfold normalize_time_list. rewrite (fold_min_unique rest t0 m Hin Hle).
  apply map_ext. intros t. apply py_round_3.
Qed.

Lemma normalize_cases l :
  l = [] \/ exists m, m ∈ l /\ Forall (fun t => m <= t) l
                      /\ normalize_time_list l = map (fun t => t - m) l.
Proof.
  destruct l as [|t0 rest]; [left; reflexivity|right].
  destruct (fold_min_spec rest t0) as [Hin Hle].
  exists (fold_left Z.min rest t0). split; [exact Hin|]. split; [exact Hle|].
  apply normalize_by_min; assumption.
Qed.

(** X1: normalizing twice is normalizing once, and a series moved along
    the time axis by any offset normalizes to the same series. *)
Theorem normalize_idempotent_shift_invariant (time_list : list Z) (d : Z) :
  normalize_time_list (normalize_time_list time_list) = normalize_time_list time_list
  /\ normalize_time_list (map (Z.add d) time_list) = normalize_time_list time_list.
Proof.
  destruct (normalize_cases time_list) as [->|(m & Hin & Hle & Hnorm)];
    [split; reflexivity|].
  split.
  - rewrite Hnorm. rewrite (normalize_by_min _ 0).
    + rewrite map_map. apply map_ext. intros t. lia.
    + apply list_elem_of_fmap. exists m. split; [lia|exact Hin].
    + apply Forall_fmap. eapply Forall_impl; [exact Hle|]. intros t Ht. simpl in *. lia.
  - rewrite Hnorm. rewrite (normalize_by_min _ (d + m)).
    + rewrite map_map. apply map_ext. intros t. lia.
    + apply list_elem_of_fmap. exists m. split; [reflexivity|exact Hin].
    + apply Forall_fmap. eapply Forall_impl; [exact Hle|]. intros t Ht. simpl in *. lia.
Qed.

(** X2: normalization keeps every timestamp at its position and keeps the
    gap between any two timestamps; series that are equal up to order
    normalize to series that are equal up to order. *)
Theorem normalize_preserves_gaps (time_list : list Z) :
  (forall (i j : nat) a b a' b',
     time_list !! i = Some a -> time_list !! j = Some b ->
     normalize_time_list time_list !! i = Some a' ->
     normalize_time_list time_list !! j = Some b' ->
     a' - b' = a - b)
  /\ (forall time_list',
        time_list ≡ₚ time_list' ->
        normalize_time_list time_list ≡ₚ normalize_time_list time_list').
Proof.
  destruct (normalize_cases time_list) as [->|(m & Hin & Hle & Hnorm)].
  - split; [intros i j a b a' b' H; discriminate|].
    intros l' Hperm. apply Permutation_nil in Hperm as ->. reflexivity.
  - split.
    + intros i j a b a' b' Ha Hb. rewrite Hnorm.
      change (map (fun t => t - m) time_list) with ((fun t => t - m) <$> time_list).
      rewrite !list_lookup_fmap, Ha, Hb. simpl. intros [= <-] [= <-]. lia.
    + intros l' Hperm. rewrite Hnorm.
      rewrite (normalize_by_min l' m).
      * apply (fmap_Permutation (fun t => t - m)), Hperm.
      * rewrite <- Hperm. exact Hin.
      * rewrite <- Hperm. exact Hle.
Qed.

Lemma normalize_preserves_gaps_witness :
  normalize_time_list [1441; 3; 7] = [1438; 0; 4]
  /\ 1438 - 4 = 1441 - 7.
Proof.
  split; [reflexivity|].
  apply (proj1 (normalize_preserves_gaps [1441; 3; 7]) 0%nat 2%nat 1441 7 1438 4);
    reflexivity.
Defined.

(** ** When a shard decodes *)








Lemma expand_minutes_ext base row row' minutes acc :
  Forall (fun minute => row !! pretty minute = row' !! pretty minute) minutes ->
  expand_minutes base row minutes acc = expand_minutes base row' minutes acc.
Proof.
  intros Hagree. revert acc.
  induction Hagree as [|minute rest Hm _ IH]; intros acc; [reflexivity|].
  cbn [expand_minutes]. rewrite <- Hm.
  destruct (row !! pretty minute) as [v|]; [|apply IH].
  destruct (gt_zero v) as [[|]|]; cbn [bind]; [|apply IH|reflexivity].
  destruct (py_int v); cbn [bind]; [apply IH|reflexivity].
Qed.

Lemma columns_read_agree (row row' : gmap string value) :
  Forall (fun key => row !! key = row' !! key) columns_read ->
  row !! "HashOwner" = row' !! "HashOwner"
  /\ row !! "HashApp" = row' !! "HashApp"
  /\ row !! "HashFunction" = row' !! "HashFunction"
  /\ row !! "Trigger" = row' !! "Trigger"
  /\ Forall (fun minute => row !! pretty minute = row' !! pretty minute) (seqZ 1 1440).
Proof.
  unfold columns_read. intros H. apply Forall_app in H as [H4 Hm].
  apply Forall_cons in H4 as [H1 H4]. apply Forall_cons in H4 as [H2 H4].
  apply Forall_cons in H4 as [H3 H4]. apply Forall_cons in H4 as [H4 _].
  repeat (split; [assumption|]).
  apply Forall_fmap in Hm. exact Hm.
Qed.

(** X4: [process_file] reads a row only through the four identity columns
    and the columns "1" to "1440": two rows that agree on these columns are
    processed alike, whatever their other columns hold, and so are two
    shards whose rows agree on them. *)
Theorem unread_columns_ignored :
  (forall base st (row row' : gmap string value),
     Forall (fun key => row !! key = row' !! key) columns_read ->
     process_row base st row = process_row base st row')
  /\ (forall rows rows' file_idx,
        Forall2 (fun row row' : gmap string value =>
                   Forall (fun key => row !! key = row' !! key) columns_read)
                rows rows' ->
        process_file (Frame rows) file_idx = process_file (Frame rows') file_idx).
Proof.
  assert (Hrow : forall base st (row row' : gmap string value),
            Forall (fun key => row !! key = row' !! key) columns_read ->
            process_row base st row = process_row base st row').
  { intros base [inv tr] row row' Hagree.
    apply columns_read_agree in Hagree as (H1 & H2 & H3 & H4 & Hm).
    unfold process_row, getitem. rewrite H1, H2, H3, H4.
    rewrite (expand_minutes_ext base row row' _ [] Hm). reflexivity. }
  split; [exact Hrow|].
  intros rows rows' file_idx Hagree. unfold process_file, process_file_body.
  generalize (([], []) : collectors). intros st.
  enough (for_each (process_row (file_idx * 24 * 60)) st rows
          = for_each (process_row (file_idx * 24 * 60)) st rows') as ->
    by reflexivity.
  revert st. induction Hagree as [|row row' rows rows' Hr _ IH]; intros st;
    [reflexivity|].
  cbn [for_each]. rewrite (Hrow _ st row row' Hr).
  destruct (process_row _ st row') as [st1|e]; cbn [bind]; [apply IH|reflexivity].
Qed.

Lemma unread_columns_ignored_witness :
  row_extra !! "1441" = Some VNull
  /\ row_busy !! "1441" = None
  /\ process_row 1440 ([], []) row_extra = process_row 1440 ([], []) row_busy.
Proof.
  split; [reflexivity|]. split; [reflexivity|].
  apply (proj1 unread_columns_ignored).
  apply (bool_decide_unpack _). vm_compute. exact I.
Defined.

(** ** The time axis of a shard *)

Lemma expand_minutes_shift base d row minutes acc :
  expand_minutes (base + d) row minutes (map (Z.add d) acc)
  = match expand_minutes base row minutes acc with
    | Ok ts => Ok (map (Z.add d) ts)
    | Raise e => Raise e
    end.
Proof.
  revert acc. induction minutes as [|minute rest IH]; intros acc; [reflexivity|].
  cbn [expand_minutes].
  destruct (row !! pretty minute) as [v|]; [|apply IH].
  destruct (gt_zero v) as [[|]|]; cbn [bind]; [|apply IH|reflexivity].
  destruct (py_int v) as [n|]; cbn [bind]; [|reflexivity].
  rewrite <- IH. f_equal.
  rewrite map_app, map_repeat. f_equal. f_equal. lia.
Qed.

Lemma shift_dict_set d k ts inv :
  dict_set k (map (Z.add d) ts) (shift_series d inv)
  = shift_series d (dict_set k ts inv).
Proof.
  induction inv as [|[k' ts'] inv IH]; [reflexivity|].
  cbn [shift_series map dict_set] in *.
  destruct (decide (k = k')); [reflexivity|].
  cbn [map]. f_equal. exact IH.
Qed.

Lemma process_row_shift base d inv tr row :
  process_row (base + d) (shift_series d inv, tr) row
  = match process_row base (inv, tr) row with
    | Ok (inv', tr') => Ok (shift_series d inv', tr')
    | Raise e => Raise e
    end.
Proof.
  unfold process_row, getitem.
  destruct (row !! "HashOwner") as [owner|]; cbn [bind]; [|reflexivity].
  destruct (row !! "HashApp") as [app|]; cbn [bind]; [|reflexivity].
  destruct (row !! "HashFunction") as [func|]; cbn [bind]; [|reflexivity].
  destruct (row !! "Trigger") as [trigger|]; cbn [bind]; [|reflexivity].
  pose proof (expand_minutes_shift base d row (seqZ 1 1440) []) as Hshift.
  cbn [map] in Hshift. rewrite Hshift.
  destruct (expand_minutes base row (seqZ 1 1440) []) as [[|t ts]|e]; cbn [bind map];
    [reflexivity| |reflexivity].
  f_equal. f_equal. apply (shift_dict_set d _ (t :: ts)).
Qed.

Lemma for_each_shift base d rows inv tr :
  for_each (process_row (base + d)) (shift_series d inv, tr) rows
  = match for_each (process_row base) (inv, tr) rows with
    | Ok (inv', tr') => Ok (shift_series d inv', tr')
    | Raise e => Raise e
    end.
Proof.
  revert inv tr. induction rows as [|row rows IH]; intros inv tr; [reflexivity|].
  cbn [for_each]. rewrite process_row_shift.
  destruct (process_row base (inv, tr) row) as [[inv1 tr1]|e]; cbn [bind];
    [apply IH|reflexivity].
Qed.

Lemma process_file_body_shift rows file_idx :
  process_file_body (Frame rows) file_idx
  = match process_file_body (Frame rows) 0 with
    | Ok (inv, tr) => Ok (shift_series (file_idx * 1440) inv, tr)
    | Raise e => Raise e
    end.
Proof.
  pose proof (for_each_shift (0 * 24 * 60) (file_idx * 1440) rows [] []) as H.
  replace (0 * 24 * 60 + file_idx * 1440) with (file_idx * 24 * 60) in H by lia.
  exact H.
Qed.

(** X5: the index of a shard only moves its time axis: the series map of
    the shard at index [file_idx] is the series map of the same shard at
    index 0 with [file_idx * 1440] added to every timestamp, under the same
    identities in the same order, and the records do not depend on the
    index. *)
Theorem shard_index_shifts_time_axis (file : shard) (file_idx : Z) :
  process_file file file_idx
  = (shift_series (file_idx * 1440) (process_file file 0).1, (process_file file 0).2).
Proof.
  destruct file as [|rows]; [reflexivity|].
  unfold process_file. rewrite (process_file_body_shift rows file_idx).
  destruct (process_file_body (Frame rows) 0) as [[inv tr]|e]; reflexivity.
Qed.

Lemma StronglySorted_seqZ m n : StronglySorted Z.lt (seqZ m n).
Proof.
  destruct (Z.le_gt_cases n 0) as [Hn|Hn]; [rewrite seqZ_nil by lia; constructor|].
  rewrite <- (Z2Nat.id n) by lia. generalize (Z.to_nat n). clear. intros k.
  revert m. induction k as [|k IH]; intros m.
  - rewrite seqZ_nil by lia. constructor.
  - rewrite seqZ_cons by lia. constructor.
    + replace (Z.pred (Z.of_nat (S k))) with (Z.of_nat k) by lia. apply IH.
    + apply Forall_forall. intros x Hx. apply elem_of_seqZ in Hx. lia.
Qed.

Lemma expansion_sorted base row minutes :
  StronglySorted Z.lt minutes ->
  StronglySorted Z.le (expansion base row minutes).
Proof.
  induction 1 as [|m rest Hrest IH Hm]; simpl; [constructor|].
  apply StronglySorted_app_2; [| |exact IH].
  - intros x1 x2 Hx1 Hx2. apply list_elem_of_In, repeat_spec in Hx1 as ->.
    unfold expansion in Hx2. apply list_elem_of_In, in_flat_map in Hx2 as (m' & Hm' & Hx2).
    apply repeat_spec in Hx2 as ->. rewrite Forall_forall in Hm.
    apply list_elem_of_In in Hm'. specialize (Hm _ Hm'). lia.
  - generalize (minute_copies row m). intros n. induction n as [|n IHn]; simpl.
    + constructor.
    + constructor; [exact IHn|]. apply Forall_forall. intros x Hx.
      apply list_elem_of_In, repeat_spec in Hx as ->. lia.
Qed.

Lemma series_sorted k file file_idx :
  StronglySorted Z.le (series k (process_file file file_idx).1).
Proof.
  unfold series. destruct (dict_get k _) as [ts|] eqn:Hget; [|constructor]. simpl.
  revert Hget. unfold process_file, process_file_body.
  destruct file as [|rows]; [discriminate|].
  destruct (for_each _ _ rows) as [st|e] eqn:Hrun; [|discriminate].
  revert k ts.
  refine (for_each_inv
            (fun st : collectors =>
               forall k ts, dict_get k st.1 = Some ts -> StronglySorted Z.le ts)
            _ rows ([], []) st _ _ Hrun); [|discriminate].
  intros [inv tr] row s' _ Hsorted Hstep.
  apply process_row_step in Hstep as (rec & _ & _ & ->).
  pose proof (expansion_sorted (file_idx * 24 * 60) row _ (StronglySorted_seqZ 1 1440))
    as Hexp.
  destruct (expansion _ row (seqZ 1 1440)) as [|t ts] eqn:E; [exact Hsorted|].
  intros k ts'. simpl. destruct (decide (new_hash_uuid rec = k)) as [<-|Hne].
  - rewrite dict_get_set_eq. intros [= <-]. exact Hexp.
  - rewrite dict_get_set_ne by exact Hne. apply Hsorted.
Qed.

(** X6: every series [process_file] returns is non-empty and in
    non-decreasing order of time. *)
Theorem shard_series_sorted (file : shard) (file_idx : Z) (func_id : string)
    (timestamps : list Z) :
  dict_get func_id (process_file file file_idx).1 = Some timestamps ->
  timestamps <> [] /\ StronglySorted Z.le timestamps.
Proof.
  intros Hget. split.
  - destruct (process_file_shard_inv file file_idx) as [_ Hser].
    exact (proj1 (Hser _ _ Hget)).
  - pose proof (series_sorted func_id file file_idx) as H.
    unfold series in H. rewrite Hget in H. exact H.
Qed.

Lemma shard_series_sorted_witness :
  dict_get "5dac6055c9" (process_file (Frame [row_a]) 1).1 = Some [1441; 1441]
  /\ [1441; 1441] <> [] /\ StronglySorted Z.le [1441; 1441].
Proof.
  split; [vm_compute; reflexivity|].
  apply (shard_series_sorted (Frame [row_a]) 1 "5dac6055c9").
  vm_compute. reflexivity.
Defined.

(** ** What the merge keeps *)

Lemma series_merge k acc fi :
  NoDup (keys fi) ->
  series k (merge_invocations acc fi) = series k acc ++ series k fi.
Proof.
  intros Hnd. unfold series. rewrite merge_invocations_get by exact Hnd.
  destruct (dict_get k acc), (dict_get k fi); simpl; try reflexivity.
  symmetry. apply app_nil_r.
Qed.

Lemma fold_merge_series k completed main :
  Forall (fun file : collectors => NoDup (keys file.1)) completed ->
  series k (fold_left merge_file completed main).1
  = series k main.1 ++ concat (map (fun file : collectors => series k file.1) completed).
Proof.
  intros Hwf. revert main.
  induction Hwf as [|file completed Hfile _ IH]; intros main; simpl.
  - symmetry. apply app_nil_r.
  - rewrite IH. simpl. rewrite series_merge by exact Hfile.
    symmetry. apply app_assoc.
Qed.

Lemma fold_merge_translations completed (main : collectors) :
  (fold_left merge_file completed main).2 = main.2 ++ concat (map snd completed).
Proof.
  revert main. induction completed as [|file completed IH]; intros main; simpl.
  - symmetry. apply app_nil_r.
  - rewrite IH. simpl. symmetry. apply app_assoc.
Qed.

Lemma fold_merge_nonempty completed main :
  Forall (fun file : collectors => NoDup (keys file.1)) completed ->
  Forall (fun file : collectors => series_nonempty file.1) completed ->
  series_nonempty main.1 ->
  series_nonempty (fold_left merge_file completed main).1.
Proof.
  intros Hwf. revert main.
  induction Hwf as [|file completed Hfile _ IH]; intros main Hne Hmain; simpl.
  - exact Hmain.
  - apply Forall_cons in Hne as [Hf Hne]. apply IH; [exact Hne|].
    intros k ts. simpl. rewrite merge_invocations_get by exact Hfile.
    specialize (Hmain k). specialize (Hf k).
    destruct (dict_get k main.1) as [x|], (dict_get k file.1) as [y|]; simpl;
      intros [= <-].
    + intros Happ. apply app_eq_nil in Happ as [-> _]. exact (Hmain _ eq_refl eq_refl).
    + exact (Hmain _ eq_refl).
    + exact (Hf _ eq_refl).
Qed.

Lemma as_completed_Forall {A} (P : A -> Prop) order (futures : list A) :
  Forall P futures -> Forall P (as_completed order futures).
Proof.
  intros H. apply Forall_forall. intros x Hx. apply as_completed_elem in Hx.
  rewrite Forall_forall in H. exact (H x Hx).
Qed.

Lemma submit_Forall (P : collectors -> Prop) files :
  (forall file idx, P (process_file file idx)) -> Forall P (submit files).
Proof.
  intros H. apply Forall_lookup. intros i r Hr. rewrite submit_lookup in Hr.
  destruct (files !! i) as [file|]; [|discriminate]. injection Hr as <-. apply H.
Qed.

Lemma collect_nonempty files order :
  series_nonempty (collect (as_completed order (submit files))).1.
Proof.
  apply fold_merge_nonempty.
  - apply as_completed_keys_NoDup.
  - apply as_completed_Forall, submit_Forall. intros file idx k ts Hget.
    destruct (process_file_shard_inv file idx) as [_ Hser].
    exact (proj1 (Hser _ _ Hget)).
  - intros k ts. discriminate.
Qed.

(** X7: whatever the completion order, the merged series of an identity
    is the concatenation, in completion order, of the series the completed
    shards hold for it, the accumulated records are the concatenation of
    their records, and an identity is absent from the merged map exactly
    when that concatenation is empty. *)
Theorem merged_series_in_completion_order (invocation_files : list shard)
    (order : list nat) (func_id : string) :
  let completed := as_completed order (submit invocation_files) in
  let main := collect completed in
  series func_id main.1
  = concat (map (fun file : collectors => series func_id file.1) completed)
  /\ main.2 = concat (map snd completed)
  /\ (dict_get func_id main.1 = None <-> series func_id main.1 = []).
Proof.
  intros completed main. split; [|split].
  - apply (fold_merge_series func_id completed ([], [])).
    apply as_completed_keys_NoDup.
  - apply (fold_merge_translations completed ([], [])).
  - pose proof (collect_nonempty invocation_files order func_id) as Hne.
    fold completed in Hne. fold main in Hne. unfold series.
    destruct (dict_get func_id main.1) as [ts|]; simpl.
    + split; [discriminate|]. intros ->. exfalso. exact (Hne _ eq_refl eq_refl).
    + split; reflexivity.
Qed.

Lemma in_day_disjoint i j t : in_day i t -> in_day j t -> i = j.
Proof. unfold in_day. lia. Qed.

Lemma filter_all {A} (P : A -> Prop) `{forall x, Decision (P x)} l :
  Forall P l -> filter P l = l.
Proof.
  induction 1 as [|x l Hx _ IH]; [reflexivity|].
  rewrite filter_cons_True by exact Hx. f_equal. exact IH.
Qed.

Lemma filter_none {A} (P : A -> Prop) `{forall x, Decision (P x)} l :
  Forall (fun x => ~ P x) l -> filter P l = [].
Proof.
  induction 1 as [|x l Hx _ IH]; [reflexivity|].
  rewrite filter_cons_False by exact Hx. exact IH.
Qed.

Lemma series_in_day k file file_idx :
  Forall (in_day file_idx) (series k (process_file file file_idx).1).
Proof.
  unfold series. destruct (dict_get k _) as [ts|] eqn:Hget; [|constructor].
  destruct (process_file_shard_inv file file_idx) as [_ Hser].
  exact (proj2 (Hser _ _ Hget)).
Qed.

Lemma day_slice_of_completed files order (i : nat) file k :
  NoDup order -> files !! i = Some file ->
  filter (in_day (Z.of_nat i))
    (concat (map (fun r : collectors => series k r.1) (as_completed order (submit files))))
  = if decide (i ∈ order) then series k (process_file file (Z.of_nat i)).1 else [].
Proof.
  intros Hnd Hfile. induction Hnd as [|j order Hj Hnd IH].
  - reflexivity.
  - rewrite as_completed_cons, submit_lookup.
    destruct (decide (j = i)) as [->|Hne].
    + rewrite Hfile. simpl. rewrite filter_app, IH.
      rewrite decide_False by exact Hj. rewrite decide_True by left.
      rewrite app_nil_r. apply filter_all, series_in_day.
    + assert (Hmem : i ∈ j :: order <-> i ∈ order).
      { rewrite elem_of_cons. split; [intros [->|H]; [contradiction|exact H]|tauto]. }
      assert (Hrest : filter (in_day (Z.of_nat i))
                        (concat (map (fun r : collectors => series k r.1)
                                   (as_completed order (submit files))))
                      = if decide (i ∈ j :: order)
                        then series k (process_file file (Z.of_nat i)).1 else []).
      { rewrite IH. destruct (decide (i ∈ order)), (decide (i ∈ j :: order)); tauto. }
      destruct (files !! j) as [fj|]; simpl; [|exact Hrest].
      rewrite filter_app, Hrest. rewrite filter_none; [reflexivity|].
      eapply Forall_impl; [apply series_in_day|].
      intros t Hj' Hi. simpl in *. pose proof (in_day_disjoint _ _ _ Hi Hj'). lia.
Qed.

(** X8: the merge keeps the shards apart: when every task completes at
    most once, the timestamps of a merged series that fall in the day of
    shard [i] are exactly the series of shard [i] for that identity, in its
    order (and there are none when the task of shard [i] is not among the
    completed ones). *)
Theorem day_slice_recovers_shard (invocation_files : list shard) (order : list nat)
    (i : nat) (file : shard) (func_id : string) :
  NoDup order ->
  invocation_files !! i = Some file ->
  filter (in_day (Z.of_nat i))
         (series func_id (collect (as_completed order (submit invocation_files))).1)
  = if decide (i ∈ order)
    then series func_id (process_file file (Z.of_nat i)).1
    else [].
Proof.
  intros Hnd Hfile.
  unfold collect.
  rewrite (fold_merge_series func_id _ ([], [])) by apply as_completed_keys_NoDup.
  apply day_slice_of_completed; assumption.
Qed.

Lemma day_slice_recovers_shard_witness :
  series "5dac6055c9"
    (collect (as_completed [1%nat; 0%nat] (submit [Frame [row_a]; Frame [row_b]]))).1
  = [1441; 1; 1]
  /\ filter (in_day (Z.of_nat 0))
       (series "5dac6055c9"
          (collect (as_completed [1%nat; 0%nat] (submit [Frame [row_a]; Frame [row_b]]))).1)
     = [1; 1].
Proof.
  split; [vm_compute; reflexivity|].
  rewrite (day_slice_recovers_shard [Frame [row_a]; Frame [row_b]] [1%nat; 0%nat]
             0%nat (Frame [row_a]) "5dac6055c9").
  - vm_compute. reflexivity.
  - apply (bool_decide_unpack _). vm_compute. exact I.
  - reflexivity.
Defined.

(** ** The merged map and the records *)

Lemma collect_keys_NoDup files order :
  NoDup (keys (collect (as_completed order (submit files))).1).
Proof. apply fold_merge_NoDup. constructor. Qed.

(** Every identity of a series map has a record that translates it. *)
Lemma process_file_translated file file_idx k :
  is_Some (dict_get k (process_file file file_idx).1) ->
  exists rec, rec ∈ (process_file file file_idx).2 /\ new_hash_uuid rec = k.
Proof.
  unfold process_file, process_file_body.
  destruct file as [|rows]; [intros [? H]; discriminate|].
  destruct (for_each _ _ rows) as [st|e] eqn:Hrun; [|intros [? H]; discriminate].
  refine (for_each_inv
            (fun st : collectors =>
               is_Some (dict_get k st.1) ->
               exists rec, rec ∈ st.2 /\ new_hash_uuid rec = k)
            _ rows ([], []) st _ _ Hrun); [|intros [? H]; discriminate].
  intros [inv tr] row s' _ IH Hstep.
  apply process_row_step in Hstep as (rec & _ & _ & ->). simpl.
  assert (Hold : is_Some (dict_get k inv) ->
                 exists rec', rec' ∈ tr ++ [rec] /\ new_hash_uuid rec' = k).
  { intros H. destruct (IH H) as (rec' & Hin & Hk). exists rec'.
    split; [apply elem_of_app; left; exact Hin|exact Hk]. }
  destruct (expansion _ row (seqZ 1 1440)); [exact Hold|].
  destruct (decide (new_hash_uuid rec = k)) as [Hk|Hne].
  - intros _. exists rec. split; [|exact Hk].
    apply elem_of_app. right. left.
  - rewrite dict_get_set_ne by exact Hne. exact Hold.
Qed.

Lemma fold_merge_get_Some k completed main :
  Forall (fun file : collectors => NoDup (keys file.1)) completed ->
  is_Some (dict_get k (fold_left merge_file completed main).1) ->
  is_Some (dict_get k main.1)
  \/ exists file, file ∈ completed /\ is_Some (dict_get k file.1).
Proof.
  intros Hwf. revert main.
  induction Hwf as [|file completed Hfile _ IH]; intros main; simpl.
  - intros H. left. exact H.
  - intros H. apply IH in H as [H|(f & Hf & H)].
    + simpl in H. rewrite merge_invocations_get in H by exact Hfile.
      destruct (dict_get k main.1) as [x|]; [left; eexists; reflexivity|].
      right. exists file. split; [left|]. destruct (dict_get k file.1); [eexists; reflexivity|].
      destruct H as [? H]. discriminate.
    + right. exists f. split; [right; exact Hf|exact H].
Qed.

(** X11: every identity of the merged series map can be translated: the
    accumulated translation records hold a record whose [new_hash_uuid] is
    that identity. *)
Theorem every_identity_is_translated (invocation_files : list shard) (order : list nat)
    (func_id : string) :
  let main := collect (as_completed order (submit invocation_files)) in
  is_Some (dict_get func_id main.1) ->
  exists rec, rec ∈ main.2 /\ new_hash_uuid rec = func_id.
Proof.
  intros main Hsome. subst main.
  apply fold_merge_get_Some in Hsome as [[? H]|(file & Hfile & Hsome)];
    [discriminate| |apply as_completed_keys_NoDup].
  pose proof Hfile as Hfile'.
  apply as_completed_elem, list_elem_of_lookup in Hfile as [i Hi].
  rewrite submit_lookup in Hi.
  destruct (invocation_files !! i) as [f|]; [|discriminate]. injection Hi as <-.
  apply process_file_translated in Hsome as (rec & Hrec & Hk).
  exists rec. split; [|exact Hk].
  unfold collect. rewrite fold_merge_translations. simpl.
  apply list_elem_of_In, in_concat. eexists. split.
  - apply in_map_iff. eexists. split; [reflexivity|]. apply list_elem_of_In. exact Hfile'.
  - apply list_elem_of_In. exact Hrec.
Qed.

Lemma every_identity_is_translated_witness :
  dict_get "ab3e2bec69"
    (collect (as_completed [1%nat; 0%nat]
                (submit [Frame [row_a; row_busy]; Frame [row_b]]))).1
  = Some [5; 5; 5; 1440; 1440]
  /\ exists rec,
       rec ∈ (collect (as_completed [1%nat; 0%nat]
                         (submit [Frame [row_a; row_busy]; Frame [row_b]]))).2
       /\ new_hash_uuid rec = "ab3e2bec69".
Proof.
  split; [vm_compute; reflexivity|].
  apply (every_identity_is_translated [Frame [row_a; row_busy]; Frame [row_b]]
           [1%nat; 0%nat] "ab3e2bec69").
  eexists. vm_compute. reflexivity.
Defined.

(** ** The merge neither loses nor invents timestamps *)

Lemma mass_dict_set k v d :
  (mass (dict_set k v d) + length (series k d) = mass d + length v)%nat.
Proof.
  unfold mass, series. induction d as [|[k' v'] d IH]; simpl.
  - lia.
  - destruct (decide (k = k')) as [->|Hne]; simpl; lia.
Qed.

Lemma mass_merge acc fi :
  mass (merge_invocations acc fi) = (mass acc + mass fi)%nat.
Proof.
  unfold merge_invocations. revert acc.
  induction fi as [|[k ts] fi IH]; intros acc; cbn [fold_left].
  - unfold mass at 3. simpl. lia.
  - rewrite IH. unfold mass at 4. simpl. fold (mass fi).
    destruct (dict_get k acc) as [old|] eqn:Hget.
    + pose proof (mass_dict_set k (old ++ ts) acc) as H.
      unfold series in H. rewrite Hget, length_app in H. simpl in H. lia.
    + pose proof (mass_dict_set k ts acc) as H.
      unfold series in H. rewrite Hget in H. simpl in H. lia.
Qed.

Lemma fold_merge_mass completed main :
  mass (fold_left merge_file completed main).1
  = (mass main.1 + sum_list_with (fun file : collectors => mass file.1) completed)%nat.
Proof.
  revert main. induction completed as [|file completed IH]; intros main; simpl.
  - lia.
  - rewrite IH. simpl. rewrite mass_merge. lia.
Qed.

(** X12: the merge neither loses nor invents a timestamp: the merged
    series map holds as many timestamps as the series maps of the completed
    shards together, and as many as those of all the shards when every
    task completes exactly once. *)
Theorem merge_keeps_every_timestamp (invocation_files : list shard) (order : list nat) :
  let main := collect (as_completed order (submit invocation_files)) in
  mass main.1
  = sum_list_with (fun file : collectors => mass file.1)
      (as_completed order (submit invocation_files))
  /\ (order ≡ₚ seq 0 (length invocation_files) ->
      mass main.1
      = sum_list_with (fun file : collectors => mass file.1) (submit invocation_files)).
Proof.
  intros main.
  assert (Hmass : mass main.1
                  = sum_list_with (fun file : collectors => mass file.1)
                      (as_completed order (submit invocation_files))).
  { subst main. unfold collect. rewrite fold_merge_mass. reflexivity. }
  split; [exact Hmass|].
  intros Horder. rewrite Hmass.
  apply sum_list_with_Permutation_proper.
  rewrite (as_completed_perm _ _ _ Horder).
  replace (length invocation_files) with (length (submit invocation_files))
    by (unfold submit; apply length_imap).
  rewrite as_completed_all. reflexivity.
Qed.

Lemma merge_keeps_every_timestamp_witness :
  [1%nat; 0%nat] ≡ₚ seq 0 (length [Frame [row_a; row_busy]; Frame [row_b]])
  /\ mass (collect (as_completed [1%nat; 0%nat]
                      (submit [Frame [row_a; row_busy]; Frame [row_b]]))).1 = 8%nat
  /\ mass (collect (as_completed [1%nat; 0%nat]
                      (submit [Frame [row_a; row_busy]; Frame [row_b]]))).1
     = sum_list_with (fun file : collectors => mass file.1)
         (submit [Frame [row_a; row_busy]; Frame [row_b]]).
Proof.
  split; [apply Permutation_swap|]. split; [vm_compute; reflexivity|].
  exact (proj2 (merge_keeps_every_timestamp [Frame [row_a; row_busy]; Frame [row_b]]
                  [1%nat; 0%nat]) (Permutation_swap 0%nat 1%nat [])).
Defined.

(** ** When the run returns *)

Lemma dict_set_not_nil {V} k (v : V) d : dict_set k v d <> [].
Proof. destruct d as [|[k' v'] d]; simpl; [|destruct (decide (k = k'))]; discriminate. Qed.

Lemma merge_invocations_nil acc fi :
  merge_invocations acc fi = [] <-> acc = [] /\ fi = [].
Proof.
  unfold merge_invocations. revert acc.
  induction fi as [|[k ts] fi IH]; intros acc; cbn [fold_left].
  - split; [intros ->; split; reflexivity|intros [-> _]; reflexivity].
  - rewrite IH. split; [|intros [_ H]; discriminate].
    intros [H _]. exfalso.
    destruct (dict_get k acc); exact (dict_set_not_nil _ _ _ H).
Qed.

Lemma fold_merge_nil completed (main : collectors) :
  (fold_left merge_file completed main).1 = []
  <-> main.1 = [] /\ Forall (fun file : collectors => file.1 = []) completed.
Proof.
  revert main. induction completed as [|file completed IH]; intros main; simpl.
  - split; [intros H; split; [exact H|constructor]|intros [H _]; exact H].
  - rewrite IH. simpl. rewrite merge_invocations_nil, Forall_cons. tauto.
Qed.

Lemma positive_cell_expansion base (row : gmap string value) (minute c : Z) :
  1 <= minute <= 1440 -> row !! pretty minute = Some (VInt c) -> 0 < c ->
  expansion base row (seqZ 1 1440) <> [].
Proof.
  intros Hminute Hcell Hc Hnil.
  pose proof (expansion_count base row (seqZ 1 1440) minute) as Hcount.
  rewrite Hnil in Hcount. unfold minute_copies in Hcount. rewrite Hcell in Hcount.
  simpl in Hcount.
  assert (0%nat = Z.to_nat c); [|lia].
  apply Hcount; [apply NoDup_seqZ|apply elem_of_seqZ; lia].
Qed.

Lemma for_each_rows_nonempty base rows (st st' : collectors)
    (row : gmap string value) (minute c : Z) :
  for_each (process_row base) st rows = Ok st' ->
  1 <= minute <= 1440 -> row !! pretty minute = Some (VInt c) -> 0 < c ->
  st.1 <> [] \/ row ∈ rows ->
  st'.1 <> [].
Proof.
  intros Hrun Hminute Hcell Hc. revert st Hrun.
  induction rows as [|x rows IH]; intros [inv tr] Hrun Hcase; cbn [for_each] in Hrun.
  - injection Hrun as <-. destruct Hcase as [H|H]; [exact H|].
    apply elem_of_nil in H as [].
  - destruct (process_row base (inv, tr) x) as [s1|e] eqn:Hstep;
      cbn [bind] in Hrun; [|discriminate].
    apply (IH s1 Hrun).
    apply process_row_step in Hstep as (rec & _ & _ & ->). simpl.
    destruct Hcase as [H|H].
    + left. destruct (expansion base x (seqZ 1 1440)); [exact H|apply dict_set_not_nil].
    + apply elem_of_cons in H as [<-|H]; [left|right; exact H].
      pose proof (positive_cell_expansion base row minute c Hminute Hcell Hc) as Hne.
      destruct (expansion base row (seqZ 1 1440)); [contradiction|apply dict_set_not_nil].
Qed.

(** X9: one invocation is enough to make the run raise: the merged series
    map is empty exactly when the series map of every completed shard is;
    if it is not, the run raises in the table stage, whatever the
    completion order and whatever the library does for the translation
    frame; and that is so as soon as a completed shard that decodes has a
    row with a positive minute field. *)
Theorem run_raises_on_any_invocation (frame : Type)
    (frame_unique : list translation -> result frame)
    (invocation_files : list shard) (order : list nat) :
  let completed := as_completed order (submit invocation_files) in
  ((collect completed).1 = []
   <-> Forall (fun file : collectors => file.1 = []) completed)
  /\ (~ Forall (fun file : collectors => file.1 = []) completed ->
      process_invocation_data frame_unique invocation_files order
      = Raise ComputeError)
  /\ (forall (idx : nat) rows st (row : gmap string value) (minute c : Z),
        idx ∈ order ->
        invocation_files !! idx = Some (Frame rows) ->
        process_file_body (Frame rows) (Z.of_nat idx) = Ok st ->
        row ∈ rows ->
        1 <= minute <= 1440 ->
        row !! pretty minute = Some (VInt c) ->
        0 < c ->
        process_invocation_data frame_unique invocation_files order
        = Raise ComputeError).
Proof.
  intros completed.
  pose proof (fold_merge_nil completed ([], [])) as Hnil.
  fold (collect completed) in Hnil. simpl in Hnil.
  assert (Hraise : ~ Forall (fun file : collectors => file.1 = []) completed ->
                   process_invocation_data frame_unique invocation_files order
                   = Raise ComputeError).
  { intros Hsome. apply run_raises. fold completed. intros H.
    apply Hsome. apply Hnil in H as [_ H]. exact H. }
  split; [|split; [exact Hraise|]].
  - rewrite Hnil. tauto.
  - intros idx rows st row minute c Hidx Hfile Hrun Hrow Hminute Hcell Hc.
    apply Hraise. intros Hall. rewrite Forall_forall in Hall.
    assert (Hst : st.1 <> []).
    { unfold process_file_body in Hrun.
      apply (for_each_rows_nonempty _ rows ([], []) st row minute c Hrun Hminute Hcell Hc).
      right. exact Hrow. }
    apply Hst. apply (Hall st).
    subst completed. unfold as_completed. apply list_elem_of_omap.
    exists idx. split; [exact Hidx|].
    rewrite submit_lookup, Hfile. simpl. unfold process_file. rewrite Hrun. reflexivity.
Qed.

Lemma run_raises_on_any_invocation_witness :
  process_file_body (Frame [row_busy]) 1
  = Ok ([("ab3e2bec69", [1445; 1445; 1445; 2880; 2880])],
        [ Translation (VStr "o3") (VStr "a3") (VStr "f3") (VStr "http")
            "o3_a3_f3" "ab3e2bec69" ])
  /\ process_invocation_data (fun records => Ok records)
       [Frame [row_idle]; Frame [row_busy]] [1%nat; 0%nat]
     = Raise ComputeError.
Proof.
  assert (Hrun : process_file_body (Frame [row_busy]) 1
                 = Ok ([("ab3e2bec69", [1445; 1445; 1445; 2880; 2880])],
                       [ Translation (VStr "o3") (VStr "a3") (VStr "f3") (VStr "http")
                           "o3_a3_f3" "ab3e2bec69" ]))
    by (vm_compute; reflexivity).
  split; [exact Hrun|].
  refine (proj2 (proj2 (run_raises_on_any_invocation _ (fun records => Ok records)
                          [Frame [row_idle]; Frame [row_busy]] [1%nat; 0%nat]))
            1%nat [row_busy] _ row_busy 5 3 _ eq_refl Hrun _ _ _ _).
  - left.
  - left.
  - lia.
  - vm_compute. reflexivity.
  - lia.
Defined.

(** ** Finding the shard files *)

Lemma startswith_spec s p : startswith s p = true <-> exists t, s = p +:+ t.
Proof.
  unfold startswith. revert s. induction p as [|a p IH]; intros s.
  - split; [intros _; exists s; reflexivity|intros _; destruct s; reflexivity].
  - destruct s as [|b s]; simpl.
    + split; [discriminate|intros [t H]; discriminate].
    + destruct (ascii_dec a b) as [->|Hne].
      * rewrite IH. split; intros [t H]; exists t; [rewrite H; reflexivity|].
        injection H as ->. reflexivity.
      * split; [discriminate|]. intros [t H]. injection H as -> _. contradiction.
Qed.

Lemma substring_all s : substring 0 (String.length s) s = s.
Proof. induction s as [|c s IH]; simpl; [reflexivity|]. rewrite IH. reflexivity. Qed.

Lemma substring_skip t suf :
  substring (String.length t) (String.length suf) (t +:+ suf) = suf.
Proof. induction t as [|c t IH]; simpl; [apply substring_all|exact IH]. Qed.

Lemma length_string_append a b :
  String.length (a +:+ b) = (String.length a + String.length b)%nat.
Proof. induction a as [|c a IH]; simpl; [reflexivity|]. rewrite IH. reflexivity. Qed.

Lemma substring_split (k : nat) s :
  (k <= String.length s)%nat ->
  s = substring 0 k s +:+ substring k (String.length s - k) s.
Proof.
  revert k. induction s as [|c s IH]; intros k Hk; simpl in *.
  - destruct k; [reflexivity|lia].
  - destruct k as [|k]; simpl.
    + rewrite substring_all. reflexivity.
    + change (String c s
              = String c (substring 0 k s +:+ substring k (String.length s - k) s)).
      f_equal. apply IH. lia.
Qed.

Lemma endswith_spec s suffix : endswith s suffix = true <-> exists t, s = t +:+ suffix.
Proof.
  unfold endswith. rewrite andb_true_iff, Nat.leb_le, String.eqb_eq. split.
  - intros [Hle Hsub].
    exists (substring 0 (String.length s - String.length suffix) s).
    pose proof (substring_split (String.length s - String.length suffix) s) as H.
    replace (String.length s - (String.length s - String.length suffix))%nat
      with (String.length suffix) in H by lia.
    rewrite Hsub in H. apply H. lia.
  - intros [t ->]. rewrite length_string_append. split; [lia|].
    replace (String.length t + String.length suffix - String.length suffix)%nat
      with (String.length t) by lia.
    apply substring_skip.
Qed.

Lemma string_leb_trans a b c :
  String.leb a b = true -> String.leb b c = true -> String.leb a c = true.
Proof.
  unfold String.leb. revert b c.
  induction a as [|x a IH]; intros [|y b] [|z c]; simpl;
    try (intros; reflexivity || discriminate).
  unfold Ascii.compare.
  destruct (N.compare_spec (N_of_ascii x) (N_of_ascii y)) as [Hxy|Hxy|Hxy];
    destruct (N.compare_spec (N_of_ascii y) (N_of_ascii z)) as [Hyz|Hyz|Hyz];
    destruct (N.compare_spec (N_of_ascii x) (N_of_ascii z)) as [Hxz|Hxz|Hxz];
    try (intros; reflexivity || discriminate); try lia.
  apply IH.
Qed.

Lemma insert_sorted_perm f names : insert_sorted f names ≡ₚ f :: names.
Proof.
  induction names as [|x names IH]; simpl; [reflexivity|].
  destruct (String.leb f x); [reflexivity|].
  rewrite IH. apply Permutation_swap.
Qed.

Lemma sorted_perm names : sorted names ≡ₚ names.
Proof.
  induction names as [|x names IH]; simpl; [reflexivity|].
  rewrite insert_sorted_perm, IH. reflexivity.
Qed.

Lemma insert_sorted_sorted f names :
  StronglySorted str_le names -> StronglySorted str_le (insert_sorted f names).
Proof.
  induction 1 as [|x names Hs IH Hx]; simpl.
  - repeat constructor.
  - destruct (String.leb f x) eqn:Hfx.
    + constructor; [constructor; assumption|].
      constructor; [exact Hfx|].
      eapply Forall_impl; [exact Hx|]. intros y Hy.
      exact (string_leb_trans f x y Hfx Hy).
    + constructor; [exact IH|].
      rewrite insert_sorted_perm. constructor; [|exact Hx].
      destruct (String.leb_total f x) as [H|H]; [congruence|exact H].
Qed.

Lemma sorted_sorted names : StronglySorted str_le (sorted names).
Proof.
  induction names as [|x names IH]; simpl; [constructor|].
  apply insert_sorted_sorted, IH.
Qed.

Lemma sorted_of_perm names names' : names ≡ₚ names' -> sorted names = sorted names'.
Proof.
  intros Hperm. apply (StronglySorted_unique_strong str_le).
  - intros x y _ _. apply String.leb_antisym.
  - apply sorted_sorted.
  - apply sorted_sorted.
  - rewrite !sorted_perm. exact Hperm.
Qed.

(** X14: the shard files are the names of the directory that start with
    [invocations_per_function_md.anon.d] and end with [.csv], each as often
    as the listing has it; they come in ascending order, and that list, and
    with it the index of every shard, does not depend on the order in which
    the directory is listed. *)
Theorem shard_files_discovery (listing : list string) :
  (forall f,
     f ∈ invocation_file_names listing
     <-> f ∈ listing
         /\ (exists t, f = "invocations_per_function_md.anon.d" +:+ t)
         /\ (exists t, f = t +:+ ".csv"))
  /\ invocation_file_names listing
     ≡ₚ filter (fun f => is_invocation_file f = true) listing
  /\ StronglySorted (fun a b => String.leb a b = true) (invocation_file_names listing)
  /\ (forall listing',
        listing ≡ₚ listing' ->
        invocation_file_names listing = invocation_file_names listing').
Proof.
  unfold invocation_file_names. split; [|split; [|split]].
  - intros f. rewrite sorted_perm, list_elem_of_filter.
    unfold is_invocation_file. rewrite andb_true_iff, startswith_spec, endswith_spec.
    tauto.
  - apply sorted_perm.
  - apply sorted_sorted.
  - intros listing' Hperm. apply sorted_of_perm. rewrite Hperm. reflexivity.
Qed.

Lemma shard_files_discovery_witness :
  sample_listing ≡ₚ reverse sample_listing
  /\ invocation_file_names sample_listing
     = [ "invocations_per_function_md.anon.d01.csv";
         "invocations_per_function_md.anon.d02.csv" ]
  /\ invocation_file_names sample_listing
     = invocation_file_names (reverse sample_listing).
Proof.
  split; [symmetry; apply reverse_Permutation|].
  split; [vm_compute; reflexivity|].
  apply (proj2 (proj2 (proj2 (shard_files_discovery sample_listing)))).
  symmetry. apply reverse_Permutation.
Defined.

Lemma dict_get_perm {V} (d d' : pydict V) k :
  d ≡ₚ d' -> NoDup (keys d) -> dict_get k d = dict_get k d'.
Proof.
  intros Hperm Hnd.
  assert (Hnd' : NoDup (keys d')).
  { unfold keys. rewrite <- Hperm. exact Hnd. }
  destruct (dict_get k d) as [v|] eqn:Hget.
  - apply dict_get_Some_elem in Hget. rewrite Hperm in Hget.
    symmetry. apply elem_dict_get; assumption.
  - destruct (dict_get k d') as [v|] eqn:Hget'; [|reflexivity].
    apply dict_get_Some_elem in Hget'. rewrite <- Hperm in Hget'.
    rewrite (elem_dict_get _ _ _ Hnd Hget') in Hget. discriminate.
Qed.

(** X15: what the run merges does not depend on the order in which the
    directory is listed: two listings of the same files (no name twice)
    give the same shards at the same indices, hence the same merged
    collectors for the same completion order. *)
Theorem merge_independent_of_listing_order (dir dir' : pydict shard) (order : list nat) :
  dir ≡ₚ dir' -> NoDup (keys dir) ->
  map (read_csv dir) (invocation_file_names (keys dir))
  = map (read_csv dir') (invocation_file_names (keys dir'))
  /\ collect (as_completed order
                (submit (map (read_csv dir) (invocation_file_names (keys dir)))))
     = collect (as_completed order
                  (submit (map (read_csv dir') (invocation_file_names (keys dir'))))).
Proof.
  intros Hperm Hnd.
  assert (Hnames : invocation_file_names (keys dir) = invocation_file_names (keys dir')).
  { unfold invocation_file_names. apply sorted_of_perm.
    unfold keys. rewrite Hperm. reflexivity. }
  assert (Hshards : map (read_csv dir) (invocation_file_names (keys dir))
                    = map (read_csv dir') (invocation_file_names (keys dir'))).
  { rewrite <- Hnames. apply map_ext. intros name.
    unfold read_csv. rewrite (dict_get_perm dir dir' name Hperm Hnd). reflexivity. }
  split; [exact Hshards|]. rewrite Hshards. reflexivity.
Qed.

Lemma merge_independent_of_listing_order_witness :
  sample_dir ≡ₚ reverse sample_dir
  /\ NoDup (keys sample_dir)
  /\ map (read_csv sample_dir) (invocation_file_names (keys sample_dir))
     = [Frame [row_a; row_busy]; Frame [row_b]]
  /\ map (read_csv sample_dir) (invocation_file_names (keys sample_dir))
     = map (read_csv (reverse sample_dir))
         (invocation_file_names (keys (reverse sample_dir))).
Proof.
  assert (Hperm : sample_dir ≡ₚ reverse sample_dir)
    by (symmetry; apply reverse_Permutation).
  assert (Hnd : NoDup (keys sample_dir))
    by (apply (bool_decide_unpack _); vm_compute; exact I).
  split; [exact Hperm|]. split; [exact Hnd|]. split; [vm_compute; reflexivity|].
  exact (proj1 (merge_independent_of_listing_order sample_dir (reverse sample_dir)
                  [0%nat; 1%nat] Hperm Hnd)).
Defined.

(** ** Rows that share an identity *)

Lemma for_each_app {S X} (body : S -> X -> result S) st xs ys :
  for_each body st (xs ++ ys)
  = (st' <- for_each body st xs ;; for_each body st' ys).
Proof.
  revert st. induction xs as [|x xs IH]; intros st; [reflexivity|].
  cbn [app for_each]. destruct (body st x) as [s1|e]; cbn [bind]; [apply IH|reflexivity].
Qed.

Lemma for_each_idle base rows st st' k :
  for_each (process_row base) st rows = Ok st' ->
  (forall row, row ∈ rows -> row_identity row = Some k ->
               expansion base row (seqZ 1 1440) = []) ->
  dict_get k st'.1 = dict_get k st.1.
Proof.
  intros Hrun Hidle.
  refine (for_each_inv (fun s : collectors => dict_get k s.1 = dict_get k st.1)
            _ rows st st' _ eq_refl Hrun).
  intros [inv tr] row s' Hrow Hsame Hstep.
  apply process_row_step in Hstep as (rec & Hrec & _ & ->).
  destruct (expansion base row (seqZ 1 1440)) as [|t ts] eqn:Hexp; [exact Hsame|].
  simpl. rewrite dict_get_set_ne; [exact Hsame|].
  intros Hk. assert (Hid : row_identity row = Some k).
  { unfold row_identity. rewrite Hrec. simpl. rewrite Hk. reflexivity. }
  rewrite (Hidle row Hrow Hid) in Hexp. discriminate.
Qed.

(** X16: when several rows of a shard carry the same identity, the series
    of the identity in the result of [process_file] is the expansion of the
    last of those rows that has an invocation: the rows before it leave no
    trace in the series map. *)
Theorem last_row_with_invocations_wins (file_idx : Z) (before after : list (gmap string value))
    (row : gmap string value) (func_id : string) inv tr :
  process_file_body (Frame (before ++ row :: after)) file_idx = Ok (inv, tr) ->
  row_identity row = Some func_id ->
  expansion (file_idx * 24 * 60) row (seqZ 1 1440) <> [] ->
  (forall row', row' ∈ after -> row_identity row' = Some func_id ->
                expansion (file_idx * 24 * 60) row' (seqZ 1 1440) = []) ->
  dict_get func_id inv = Some (expansion (file_idx * 24 * 60) row (seqZ 1 1440)).
Proof.
  unfold process_file_body. intros Hrun Hid Hexp Hafter.
  rewrite for_each_app in Hrun.
  destruct (for_each _ _ before) as [[inv1 tr1]|e]; cbn [bind] in Hrun; [|discriminate].
  cbn [for_each] in Hrun.
  destruct (process_row _ (inv1, tr1) row) as [st2|e] eqn:Hrow; cbn [bind] in Hrun;
    [|discriminate].
  pose proof (for_each_idle _ _ _ _ func_id Hrun Hafter) as Hsame.
  cbn [fst] in Hsame. rewrite Hsame.
  apply process_row_step in Hrow as (rec & Hrec & _ & ->).
  unfold row_identity in Hid. rewrite Hrec in Hid. injection Hid as <-.
  destruct (expansion (file_idx * 24 * 60) row (seqZ 1 1440)); [contradiction|].
  simpl. apply dict_get_set_eq.
Qed.

Lemma last_row_with_invocations_wins_witness :
  expansion (0 * 24 * 60) row_a (seqZ 1 1440) = [1; 1]
  /\ expansion (0 * 24 * 60) row_c (seqZ 1 1440) = [2]
  /\ dict_get "5dac6055c9" [("5dac6055c9", [2])]
     = Some (expansion (0 * 24 * 60) row_c (seqZ 1 1440)).
Proof.
  split; [vm_compute; reflexivity|]. split; [vm_compute; reflexivity|].
  apply (last_row_with_invocations_wins 0 [row_a] [] row_c "5dac6055c9"
           [("5dac6055c9", [2])]
           [Translation (VStr "o1") (VStr "a1") (VStr "f1") (VStr "http")
              "o1_a1_f1" "5dac6055c9";
            Translation (VStr "o1") (VStr "a1") (VStr "f1") (VStr "timer")
              "o1_a1_f1" "5dac6055c9"]).
  - vm_compute. reflexivity.
  - vm_compute. reflexivity.
  - vm_compute. discriminate.
  - intros row' Hin. apply elem_of_nil in Hin as [].
Defined.

(** ** Completion in index order *)

Lemma completed_days files order k t :
  t ∈ concat (map (fun r : collectors => series k r.1) (as_completed order (submit files))) ->
  exists j : nat, j ∈ order /\ in_day (Z.of_nat j) t.
Proof.
  induction order as [|j order IH]; [intros H; apply elem_of_nil in H as []|].
  rewrite as_completed_cons, submit_lookup.
  assert (Hrest :
    t ∈ concat (map (fun r : collectors => series k r.1) (as_completed order (submit files))) ->
    exists j' : nat, j' ∈ j :: order /\ in_day (Z.of_nat j') t).
  { intros H. destruct (IH H) as (j' & Hj' & Hday). exists j'.
    split; [right; exact Hj'|exact Hday]. }
  destruct (files !! j) as [file|]; simpl; [|exact Hrest].
  rewrite elem_of_app. intros [Hin|Hin]; [|exact (Hrest Hin)].
  exists j. split; [left|].
  pose proof (series_in_day k file (Z.of_nat j)) as Hday.
  rewrite Forall_forall in Hday. exact (Hday t Hin).
Qed.

(** X17: when the tasks complete in the order of their indices, every
    merged series is in non-decreasing order of time. *)
Theorem in_order_completion_sorted (invocation_files : list shard) (order : list nat)
    (func_id : string) :
  StronglySorted lt order ->
  StronglySorted Z.le
    (series func_id (collect (as_completed order (submit invocation_files))).1).
Proof.
  intros Horder.
  assert (Hconcat :
    series func_id (collect (as_completed order (submit invocation_files))).1
    = concat (map (fun file : collectors => series func_id file.1)
                (as_completed order (submit invocation_files)))).
  { apply (fold_merge_series func_id _ ([], [])), as_completed_keys_NoDup. }
  rewrite Hconcat. clear Hconcat.
  induction Horder as [|j order Hsorted IH Hj]; [constructor|].
  rewrite as_completed_cons, submit_lookup.
  destruct (invocation_files !! j) as [file|]; simpl; [|exact IH].
  apply StronglySorted_app_2; [|apply series_sorted|exact IH].
  intros t1 t2 Ht1 Ht2.
  pose proof (series_in_day func_id file (Z.of_nat j)) as Hday.
  rewrite Forall_forall in Hday. specialize (Hday t1 Ht1).
  apply completed_days in Ht2 as (j' & Hj' & Hday').
  rewrite Forall_forall in Hj. specialize (Hj j' Hj').
  unfold in_day in *. lia.
Qed.

Lemma in_order_completion_sorted_witness :
  StronglySorted lt [0%nat; 1%nat]
  /\ series "5dac6055c9"
       (collect (as_completed [0%nat; 1%nat] (submit [Frame [row_a]; Frame [row_b]]))).1
     = [1; 1; 1441]
  /\ series "5dac6055c9"
       (collect (as_completed [1%nat; 0%nat] (submit [Frame [row_a]; Frame [row_b]]))).1
     = [1441; 1; 1]
  /\ StronglySorted Z.le
       (series "5dac6055c9"
          (collect (as_completed [0%nat; 1%nat] (submit [Frame [row_a]; Frame [row_b]]))).1).
Proof.
  assert (Hord : StronglySorted lt [0%nat; 1%nat]).
  { repeat constructor. }
  split; [exact Hord|]. split; [vm_compute; reflexivity|].
  split; [vm_compute; reflexivity|].
  exact (in_order_completion_sorted [Frame [row_a]; Frame [row_b]] [0%nat; 1%nat]
           "5dac6055c9" Hord).
Defined.
